(** * Emerent redistribution dashboard: REST client, page logic and schema

  A shallow embedding of

  - [frontend/src/lib/api.ts]: the REST client ([getAuthToken],
    [apiRequest] and the exported calls built on it);
  - the page components ([Redistribution], [Inventory],
    [CreateRedistributionDialog]): status badge, approve mutation,
    inventory aggregation, create-form validation;
  - the SQL schema: the [redistribution_status] enum and column default,
    the row-level-security SELECT policies on [redistributions], and the
    [update_updated_at_column] trigger.

  JavaScript values are modelled by [Js.jsval]; awaited externals (the
  Supabase session, [fetch], the clock) are fields of an explicit world;
  sent requests are collected in a trace. *)

From Stdlib Require Import ZArith String Ascii List Bool Lia.
From stdpp Require Import gmap strings list fin_maps pretty.

Import ListNotations.
Local Open Scope string_scope.
Set Warnings "-register-all".

(* ===================================================================== *)
(** * JavaScript values *)
(* ===================================================================== *)

Module Js.

(** Values as [response.json()] and property access produce them.
    Numbers are the integer-valued ones: the modelled code only tests a
    number for truthiness, compares integer quantities or prints them;
    [JNum z] is the number the integer literal [z] denotes ([z] itself up
    to 2^53, the nearest double beyond). An object is its list of own
    properties; a parsed object has no repeated key. *)
Inductive jsval : Type :=
| JUndefined
| JNull
| JBool (b : bool)
| JNum (z : Z)
| JStr (s : string)
| JArr (elts : list jsval)
| JObj (props : list (string * jsval)).

(** Exceptions the modelled code can raise or let through, each with
    its [message] property. *)
Inductive exn : Type :=
| Error (message : string)
| TypeError (message : string)
| SyntaxError (message : string).

(** ToBoolean. *)
Definition truthy (v : jsval) : bool :=
  match v with
  | JUndefined | JNull => false
  | JBool b => b
  | JNum z => negb (z =? 0)%Z
  | JStr s => negb (String.eqb s "")
  | JArr _ | JObj _ => true
  end.

(** [a || b]. *)
Definition or_else (a b : jsval) : jsval := if truthy a then a else b.

(** Own property of an object literal or parsed object. *)
Fixpoint lookup_prop (k : string) (props : list (string * jsval)) : jsval :=
  match props with
  | [] => JUndefined
  | (k', v) :: rest => if String.eqb k k' then v else lookup_prop k rest
  end.

Definition nullish (v : jsval) : bool :=
  match v with
  | JUndefined | JNull => true
  | _ => false
  end.

(** The value of [v.k] on a value that is not [null] or [undefined], for
    the property names the client reads ([error], [message], [data]):
    none of them exists on a primitive or on an array. *)
Definition prop (v : jsval) (k : string) : jsval :=
  match v with
  | JObj props => lookup_prop k props
  | _ => JUndefined
  end.

(** [v.k]: reading a property of [null] or [undefined] is a TypeError
    (its message, the engine's, is stood for by the property name). *)
Definition get (v : jsval) (k : string) : exn + jsval :=
  if nullish v then inl (TypeError k) else inr (prop v k).

(** [v?.k] *)
Definition get_opt (v : jsval) (k : string) : exn + jsval :=
  if nullish v then inr JUndefined else get v k.

Definition keys (v : jsval) : list string :=
  match v with
  | JObj props => map fst props
  | _ => []
  end.

(** [JSON.stringify] leaves out the properties whose value is
    [undefined]; the body of a request is kept as the value it encodes. *)
Definition stringify_props (props : list (string * jsval)) : list (string * jsval) :=
  List.filter (fun kv => match snd kv with JUndefined => false | _ => true end) props.

Definition of_option (o : option string) : jsval :=
  match o with Some s => JStr s | None => JUndefined end.

(** ** ToString *)

(** The double nearest to a natural number, ties to even, as the integer
    it is; [None] is Infinity. *)
Definition nearest_double (n : N) : option N :=
  let bits := N.size n in
  if (bits <=? 53)%N then Some n
  else
    let shift := (bits - 53)%N in
    let q := N.shiftr n shift in
    let r := (n - N.shiftl q shift)%N in
    let half := N.shiftl 1 (shift - 1) in
    let q' := if (r <? half)%N then q
              else if (half <? r)%N then (q + 1)%N
              else if N.even q then q else (q + 1)%N in
    let x := N.shiftl q' shift in
    if (2 ^ 1024 <=? x)%N then None else Some x.

Definition digits (n : N) : nat := String.length (pretty n).

(** The decimal with [k] significant digits that reads back as the double
    [x], if there is one: the closer of the two around [x], the even one
    on a tie. *)
Definition shortest_at (x : N) (k : nat) : option N :=
  let p := (10 ^ N.of_nat (digits x - k))%N in
  let lo := (x / p * p)%N in
  let hi := (lo + p)%N in
  match bool_decide (nearest_double lo = Some x), bool_decide (nearest_double hi = Some x) with
  | true, true =>
      Some (if (x - lo <? hi - x)%N then lo
            else if (hi - x <? x - lo)%N then hi
            else if N.even (lo / p) then lo else hi)
  | true, false => Some lo
  | false, true => Some hi
  | false, false => None
  end.

(** With as few significant digits as possible. *)
Fixpoint shortest (x : N) (k fuel : nat) : N :=
  match fuel with
  | O => x
  | S fuel' =>
      match shortest_at x k with
      | Some v => v
      | None => shortest x (S k) fuel'
      end
  end.

Fixpoint strip_zeros (s : string) : string :=
  match s with
  | EmptyString => EmptyString
  | String c rest =>
      match strip_zeros rest with
      | EmptyString => if Ascii.eqb c "0" then EmptyString else String c EmptyString
      | r => String c r
      end
  end.

(** Number::toString of a positive integer-valued number: all the digits
    up to 21 of them, the exponent form beyond. *)
Definition unsigned_to_string (n : N) : string :=
  match nearest_double n with
  | None => "Infinity"
  | Some x =>
      let v := shortest x 1 (digits x) in
      if (digits v <=? 21)%nat then pretty v
      else
        match strip_zeros (pretty v) with
        | String d EmptyString => String d ("e+" ++ pretty (digits v - 1)%nat)
        | String d rest => String d ("." ++ rest ++ "e+" ++ pretty (digits v - 1)%nat)
        | EmptyString => EmptyString
        end
  end.

Definition number_to_string (z : Z) : string :=
  match z with
  | Z0 => "0"
  | Zpos p => unsigned_to_string (Npos p)
  | Zneg p => "-" ++ unsigned_to_string (Npos p)
  end.

(** ToString of a parsed value. An array joins its elements with commas,
    [null] and [undefined] elements giving the empty string; an object
    gives ['[object Object]'] through the inherited [toString], and when
    an own property of that name shadows it (its value, parsed from JSON,
    is no function) the conversion throws a TypeError: [None]. *)
Fixpoint to_string (v : jsval) : option string :=
  match v with
  | JUndefined => Some "undefined"
  | JNull => Some "null"
  | JBool b => Some (if b then "true" else "false")
  | JNum z => Some (number_to_string z)
  | JStr s => Some s
  | JArr elts =>
      (fix join (l : list jsval) : option string :=
         match l with
         | [] => Some EmptyString
         | e :: rest =>
             match (if nullish e then Some EmptyString else to_string e) with
             | None => None
             | Some s =>
                 match rest with
                 | [] => Some s
                 | _ :: _ =>
                     match join rest with
                     | None => None
                     | Some r => Some (s ++ "," ++ r)
                     end
                 end
             end
         end) elts
  | JObj props =>
      if existsb (fun kv => String.eqb (fst kv) "toString") props then None
      else Some "[object Object]"
  end.

(** [new Error(v)]: the message is ToString of the argument, and is left
    to the prototype's empty string when the argument is [undefined]. The
    TypeError of a failed conversion has the engine's message (V8's here). *)
Definition new_Error (v : jsval) : exn + exn :=
  match v with
  | JUndefined => inr (Error EmptyString)
  | _ =>
      match to_string v with
      | Some s => inr (Error s)
      | None => inl (TypeError "Cannot convert object to primitive value")
      end
  end.

(** [e.message] *)
Definition message_of (e : exn) : string :=
  match e with
  | Error m | TypeError m | SyntaxError m => m
  end.

End Js.

(* ===================================================================== *)
(** * The REST client, [lib/api.ts] *)
(* ===================================================================== *)

Module Api.
Import Js.

Record Session := { access_token : string }.

Record Request := {
  url : string;
  req_method : option string;
  req_body : option jsval;
  req_headers : gmap string string
}.

(** [RequestInit] as the client uses it. [init_headers] is a plain
    object when given. *)
Record RequestInit := {
  method : option string;
  body : option jsval;
  init_headers : option (gmap string string)
}.

Definition no_options : RequestInit :=
  {| method := None; body := None; init_headers := None |}.

(** What [fetch] hands back: a promise rejected with a TypeError, or a
    response with its [ok] flag and the outcome of [response.json()]
    ([inl]: the body is not JSON and [json()] rejects with a SyntaxError). *)
Inductive FetchOutcome :=
| NetworkFailure (reason : string)
| Response (ok : bool) (parsed : string + jsval).

(** The awaited externals. *)
Record World := {
  VITE_API_URL : option string;
  session : option Session;
  fetch : Request -> FetchOutcome;
  date_now : Z;                (* Date.now() *)
  math_random_36 : string      (* Math.random().toString(36) *)
}.

(** Client computations: read the world, append to the trace of sent
    requests, and either throw or return. *)
Definition M (A : Type) : Type := World -> list Request -> (exn + A) * list Request.

#[global] Instance client_ret : MRet M := fun A (a : A) _ tr => (inr a, tr).
#[global] Instance client_bind : MBind M := fun A B (k : A -> M B) (m : M A) w tr =>
  match m w tr with
  | (inl e, tr') => (inl e, tr')
  | (inr a, tr') => k a w tr'
  end.

Definition throw {A} (e : exn) : M A := fun _ tr => (inl e, tr).
Definition lift {A} (r : exn + A) : M A := fun _ tr => (r, tr).
Definition ask : M World := fun w tr => (inr w, tr).
(** [await fetch(...)]: the request goes out, the world answers. *)
Definition send (rq : Request) : M FetchOutcome :=
  fun w tr => (inr (fetch w rq), (tr ++ [rq])%list).

Definition run {A} (m : M A) (w : World) : (exn + A) * list Request := m w [].

Definition API_BASE_URL (w : World) : string :=
  match VITE_API_URL w with
  | Some u => if String.eqb u "" then "http://localhost:8001/api" else u
  | None => "http://localhost:8001/api"
  end.

(** [data.session?.access_token || null] *)
Definition getAuthToken : M (option string) :=
  w ← ask;
  mret (match session w with
        | Some s => if String.eqb (access_token s) "" then None else Some (access_token s)
        | None => None
        end).

(** The headers object literal with the spread of [options.headers]:
    later properties win. *)
Definition base_headers (options : RequestInit) : gmap string string :=
  match init_headers options with
  | Some h => h ∪ {[ "Content-Type" := "application/json" ]}
  | None => {[ "Content-Type" := "application/json" ]}
  end.

(** [if (token) headers['Authorization'] = `Bearer ${token}`] *)
Definition with_token (token : option string) (headers : gmap string string)
  : gmap string string :=
  match token with
  | Some t => if String.eqb t "" then headers
              else <[ "Authorization" := "Bearer " ++ t ]> headers
  | None => headers
  end.

Definition apiRequest (endpoint : string) (options : RequestInit) : M jsval :=
  token ← getAuthToken;
  w ← ask;
  let headers := with_token token (base_headers options) in
  response ← send {| url := API_BASE_URL w ++ endpoint;
                     req_method := method options;
                     req_body := body options;
                     req_headers := headers |};
  match response with
  | NetworkFailure reason => throw (TypeError reason)
  | Response ok parsed =>
      match parsed with
      | inl reason => throw (SyntaxError reason)
      | inr data =>
          if negb ok then
            err ← lift (get data "error");
            msg ← lift (get_opt err "message");
            e ← lift (new_Error (or_else msg (JStr "API request failed")));
            throw e
          else
            lift (get data "data")
      end
  end.

(** ** Redistribution API *)

Record RedistributionItem := { sku : string; quantity : Z }.

Record CreateRedistributionRequest := {
  from_kiosk_id : string;
  to_kiosk_id : string;
  items : list RedistributionItem;
  client_req_id : string;
  signature : string;
  public_key : string
}.

Definition item_to_js (i : RedistributionItem) : jsval :=
  JObj [("sku", JStr (sku i)); ("quantity", JNum (quantity i))].

Definition request_to_js (r : CreateRedistributionRequest) : jsval :=
  JObj [("from_kiosk_id", JStr (from_kiosk_id r));
        ("to_kiosk_id", JStr (to_kiosk_id r));
        ("items", JArr (map item_to_js (items r)));
        ("client_req_id", JStr (client_req_id r));
        ("signature", JStr (signature r));
        ("public_key", JStr (public_key r))].

Definition createRedistribution (request : CreateRedistributionRequest) : M jsval :=
  apiRequest "/redistributions"
    {| method := Some "POST";
       body := Some (request_to_js request);
       init_headers := None |}.

Definition approveRedistribution
  (redistributionId adminWallet : string) (clientReqId : option string) : M jsval :=
  apiRequest ("/redistributions/" ++ redistributionId ++ "/approve")
    {| method := Some "POST";
       body := Some (JObj (stringify_props
                 [("admin_wallet", JStr adminWallet);
                  ("client_req_id", of_option clientReqId)]));
       init_headers := None |}.

Definition getRedistribution (id : string) : M jsval :=
  apiRequest ("/redistributions/" ++ id) no_options.

(** *** Query strings *)

(** A value of a [ListRedistributionsParams] property. *)
Inductive param :=
| PUndefined
| PStr (s : string)
| PNum (n : Z).

(** [String(value)] *)
Definition param_to_string (v : param) : string :=
  match v with
  | PUndefined => "undefined"
  | PStr s => s
  | PNum n => pretty n
  end.

Definition hex_digit (n : N) : ascii :=
  match String.get (N.to_nat n) "0123456789ABCDEF" with
  | Some c => c
  | None => "0"%char
  end.

(** The bytes [URLSearchParams] leaves as they are: ASCII letters and
    digits and [* - . _]. *)
Definition urlencoded_plain (c : ascii) : bool :=
  let n := N_of_ascii c in
  ((48 <=? n) && (n <=? 57) || (65 <=? n) && (n <=? 90)
   || (97 <=? n) && (n <=? 122)
   || (n =? 42) || (n =? 45) || (n =? 46) || (n =? 95))%N.

Definition urlencode_byte (c : ascii) : string :=
  if urlencoded_plain c then String c ""
  else if (N_of_ascii c =? 32)%N then "+"
  else String "%" (String (hex_digit (N_of_ascii c / 16))
                     (String (hex_digit (N_of_ascii c mod 16)) "")).

Fixpoint urlencode (s : string) : string :=
  match s with
  | EmptyString => ""
  | String c rest => urlencode_byte c ++ urlencode rest
  end.

(** The [forEach] over [Object.entries(params)]: defined values are
    appended in property order. *)
Definition query_entries (params : option (list (string * param)))
  : list (string * string) :=
  match params with
  | None => []
  | Some entries =>
      omap (fun kv => match snd kv with
                      | PUndefined => None
                      | v => Some (fst kv, param_to_string v)
                      end) entries
  end.

(** [queryParams.toString()] *)
Definition query_string (entries : list (string * string)) : string :=
  String.concat "&" (map (fun kv => urlencode (fst kv) ++ "=" ++ urlencode (snd kv)) entries).

Definition list_endpoint (base : string) (params : option (list (string * param))) : string :=
  let queryString := query_string (query_entries params) in
  if String.eqb queryString "" then base else base ++ "?" ++ queryString.

Definition listRedistributions (params : option (list (string * param))) : M jsval :=
  apiRequest (list_endpoint "/redistributions" params) no_options.

(** ** Command, transaction and health API *)

Definition getCommand (commandId : string) : M jsval :=
  apiRequest ("/commands/" ++ commandId) no_options.

Definition getTransaction (txid : string) : M jsval :=
  apiRequest ("/tx/" ++ txid) no_options.

Definition listTransactions (params : option (list (string * param))) : M jsval :=
  apiRequest (list_endpoint "/transactions" params) no_options.

Definition getHealth : M jsval := apiRequest "/health" no_options.

(** The exported calls of the client, as data. *)
Inductive call :=
| CreateRedistribution (request : CreateRedistributionRequest)
| ApproveRedistribution (redistributionId adminWallet : string) (clientReqId : option string)
| GetRedistribution (id : string)
| ListRedistributions (params : option (list (string * param)))
| GetCommand (commandId : string)
| GetTransaction (txid : string)
| ListTransactions (params : option (list (string * param)))
| GetHealth.

Definition perform (c : call) : M jsval :=
  match c with
  | CreateRedistribution r => createRedistribution r
  | ApproveRedistribution i a c => approveRedistribution i a c
  | GetRedistribution i => getRedistribution i
  | ListRedistributions p => listRedistributions p
  | GetCommand i => getCommand i
  | GetTransaction t => getTransaction t
  | ListTransactions p => listTransactions p
  | GetHealth => getHealth
  end.

End Api.

(* ===================================================================== *)
(** * The admin page, [pages/Redistribution.tsx] *)
(* ===================================================================== *)

Module Redistribution.
(** The [Redistribution] interface of [lib/api.ts]. *)
Record t := {
  id : string;
  from_kiosk_id : string;
  to_kiosk_id : string;
  status : string;
  items : list Js.jsval;
  pricing : option Js.jsval;
  blockchain_ref : option string;
  txid : option string;
  created_at : string;
  updated_at : string;
  completed_at : option string
}.
End Redistribution.

Module ListRedistributionsResponse.
Record t := {
  items : list Redistribution.t;
  total : Z;
  limit : Z;
  offset : Z
}.
End ListRedistributionsResponse.

Module Page.
Import Js Api.

(** Get status badge color *)
Definition getStatusColor (status : string) : string :=
  if String.eqb status "requested" then "bg-warning/30 text-warning"
  else if String.eqb status "approved" then "bg-blue-500/30 text-blue-500"
  else if String.eqb status "submitted" then "bg-purple-500/30 text-purple-500"
  else if String.eqb status "fulfilled" then "bg-green-500/30 text-green-500"
  else if String.eqb status "reconciled" then "bg-emerald-500/30 text-emerald-500"
  else if String.eqb status "failed" then "bg-destructive/30 text-destructive"
  else "bg-secondary".

(** ** The query cache *)

Inductive QueryData :=
| DList (response : ListRedistributionsResponse.t)
| DWallet (wallet_address : string)
| DKiosks (names : gmap string string).

Record Query := {
  data : option QueryData;
  isInvalidated : bool
}.

(** Query keys are arrays of strings; a filter key matches the queries
    whose key it is a prefix of. *)
Fixpoint key_matches (filter key : list string) : bool :=
  match filter, key with
  | [], _ => true
  | f :: fs, k :: ks => String.eqb f k && key_matches fs ks
  | _ :: _, [] => false
  end.

Definition invalidate (q : Query) : Query :=
  {| data := data q; isInvalidated := true |}.

(** [queryClient.invalidateQueries({ queryKey })] *)
Definition invalidateQueries (queryKey : list string)
  (cache : gmap (list string) Query) : gmap (list string) Query :=
  map_imap (fun key q => Some (if key_matches queryKey key then invalidate q else q)) cache.

(** ** Component state *)

Record State := {
  selectedRedist : option Redistribution.t;
  approveDialogOpen : bool;
  detailsDialogOpen : bool;
  selectedForDetails : option Redistribution.t;
  approveMutation_isPending : bool;
  cache : gmap (list string) Query
}.

Definition query_data (st : State) (key : list string) : option QueryData :=
  cache st !! key ≫= data.

Definition response_items (d : option QueryData) : list Redistribution.t :=
  match d with
  | Some (DList r) => ListRedistributionsResponse.items r
  | _ => []
  end.

(** [redistributionsResponse?.items || []] *)
Definition redistributions (st : State) : list Redistribution.t :=
  response_items (query_data st ["admin-redistributions"]).

(** [inProgressResponse?.items || []] *)
Definition allRedistributions (st : State) : list Redistribution.t :=
  response_items (query_data st ["admin-redistributions-progress"]).

Definition adminWallet (st : State) : option string :=
  match query_data st ["admin-wallet"] with
  | Some (DWallet a) => Some a
  | _ => None
  end.

(** The query functions of the two list queries. *)
Definition pending_queryFn : M jsval :=
  listRedistributions (Some [("status", PStr "requested")]).
Definition progress_queryFn : M jsval :=
  listRedistributions (Some []).

Inductive Toast :=
| toast_success (message : jsval)
| toast_error (message : jsval).

(** ** The approve mutation *)

Definition mutationFn (adminWallet : option string) (redistributionId : string) : M jsval :=
  match adminWallet with
  | None => throw (Error "Admin wallet not found")
  | Some wallet =>
      if String.eqb wallet "" then throw (Error "Admin wallet not found")
      else
        w ← ask;
        approveRedistribution redistributionId wallet
          (Some ("approve-" ++ redistributionId ++ "-" ++ pretty (date_now w)))
  end.

Definition onSuccess (st : State) : State * list Toast :=
  ({| selectedRedist := None;
      approveDialogOpen := false;
      detailsDialogOpen := detailsDialogOpen st;
      selectedForDetails := selectedForDetails st;
      approveMutation_isPending := false;
      cache := invalidateQueries ["admin-redistributions"] (cache st) |},
   [toast_success (JStr "Redistribution approved successfully!")]).

(** [error.message] of what the mutation function can reject with. *)
Definition error_message (e : exn) : jsval := JStr (message_of e).

Definition onError (e : exn) (st : State) : State * list Toast :=
  ({| selectedRedist := selectedRedist st;
      approveDialogOpen := approveDialogOpen st;
      detailsDialogOpen := detailsDialogOpen st;
      selectedForDetails := selectedForDetails st;
      approveMutation_isPending := false;
      cache := cache st |},
   [toast_error (or_else (error_message e) (JStr "Failed to approve redistribution"))]).

Definition handleApprove (redist : Redistribution.t) (st : State) : State :=
  {| selectedRedist := Some redist;
     approveDialogOpen := true;
     detailsDialogOpen := detailsDialogOpen st;
     selectedForDetails := selectedForDetails st;
     approveMutation_isPending := approveMutation_isPending st;
     cache := cache st |}.

Definition handleViewDetails (redist : Redistribution.t) (st : State) : State :=
  {| selectedRedist := selectedRedist st;
     approveDialogOpen := approveDialogOpen st;
     detailsDialogOpen := true;
     selectedForDetails := Some redist;
     approveMutation_isPending := approveMutation_isPending st;
     cache := cache st |}.

Definition setApproveDialogOpen (b : bool) (st : State) : State :=
  {| selectedRedist := selectedRedist st;
     approveDialogOpen := b;
     detailsDialogOpen := detailsDialogOpen st;
     selectedForDetails := selectedForDetails st;
     approveMutation_isPending := approveMutation_isPending st;
     cache := cache st |}.

Definition setDetailsDialogOpen (b : bool) (st : State) : State :=
  {| selectedRedist := selectedRedist st;
     approveDialogOpen := approveDialogOpen st;
     detailsDialogOpen := b;
     selectedForDetails := selectedForDetails st;
     approveMutation_isPending := approveMutation_isPending st;
     cache := cache st |}.

Definition set_pending (st : State) : State :=
  {| selectedRedist := selectedRedist st;
     approveDialogOpen := approveDialogOpen st;
     detailsDialogOpen := detailsDialogOpen st;
     selectedForDetails := selectedForDetails st;
     approveMutation_isPending := true;
     cache := cache st |}.

(** [confirmApprove] up to the point where the mutation function awaits
    the server: the state the page shows while the request is in flight,
    the requests sent so far, and the outcome the mutation will settle
    with ([None] when nothing was selected and no mutation started). *)
Definition confirmApprove (w : World) (st : State)
  : State * list Request * option (exn + jsval) :=
  match selectedRedist st with
  | Some redist =>
      let '(outcome, sent) := run (mutationFn (adminWallet st) (Redistribution.id redist)) w in
      (set_pending st, sent, Some outcome)
  | None => (st, [], None)
  end.

(** The mutation settles: [onSuccess] or [onError]. *)
Definition settle (outcome : exn + jsval) (st : State) : State * list Toast :=
  match outcome with
  | inr _ => onSuccess st
  | inl e => onError e st
  end.

(** A query function resolved: its data replaces the cached data. *)
Definition setQueryResult (key : list string) (d : QueryData) (st : State) : State :=
  {| selectedRedist := selectedRedist st;
     approveDialogOpen := approveDialogOpen st;
     detailsDialogOpen := detailsDialogOpen st;
     selectedForDetails := selectedForDetails st;
     approveMutation_isPending := approveMutation_isPending st;
     cache := <[ key := {| data := Some d; isInvalidated := false |} ]> (cache st) |}.

(** ** Everything that can happen to the page *)

Inductive Event :=
| ClickApprove (redist : Redistribution.t)
| ClickConfirmApproval
| ClickCancel
| ApproveDialogOpenChange (open : bool)
| ClickDetails (redist : Redistribution.t)
| DetailsDialogOpenChange (open : bool)
| ClickClose
| MutationSettled (outcome : exn + jsval)
| QueryResolved (key : list string) (d : QueryData).

Record Effects := {
  sent : list Request;
  toasts : list Toast
}.

Definition step (w : World) (e : Event) (st : State) : State * Effects :=
  match e with
  | ClickApprove redist => (handleApprove redist st, {| sent := []; toasts := [] |})
  | ClickConfirmApproval =>
      let '(st', rqs, _) := confirmApprove w st in
      (st', {| sent := rqs; toasts := [] |})
  | ClickCancel => (setApproveDialogOpen false st, {| sent := []; toasts := [] |})
  | ApproveDialogOpenChange b => (setApproveDialogOpen b st, {| sent := []; toasts := [] |})
  | ClickDetails redist => (handleViewDetails redist st, {| sent := []; toasts := [] |})
  | DetailsDialogOpenChange b => (setDetailsDialogOpen b st, {| sent := []; toasts := [] |})
  | ClickClose => (setDetailsDialogOpen false st, {| sent := []; toasts := [] |})
  | MutationSettled outcome =>
      let '(st', ts) := settle outcome st in
      (st', {| sent := []; toasts := ts |})
  | QueryResolved key d => (setQueryResult key d st, {| sent := []; toasts := [] |})
  end.

(** The redistribution records an event brings in from outside the
    component: the clicked list entry, or the items of a server response. *)
Definition brought_in (e : Event) : list Redistribution.t :=
  match e with
  | ClickApprove redist | ClickDetails redist => [redist]
  | QueryResolved _ d => response_items (Some d)
  | _ => []
  end.

(** Every redistribution record the page holds. *)
Definition held (st : State) : list Redistribution.t :=
  (option_list (selectedRedist st) ++ option_list (selectedForDetails st)
   ++ concat (map (fun kq => response_items (data (snd kq))) (map_to_list (cache st))))%list.

End Page.

(* ===================================================================== *)
(** * The inventory page: aggregation of kiosk inventory *)
(* ===================================================================== *)

Module Inventory.

Record Product := {
  id : string;
  sku : string;
  name : string;
  unit : string;
  unit_price : Z;                 (* NUMERIC(10, 2), in hundredths *)
  acquired_price : option Z;
  suggested_price : option Z;
  quantity : Z
}.

Module KioskInventory.
Record t := {
  id : string;
  kiosk_id : string;
  product_id : string;
  quantity : Z;
  threshold : option Z;
  products : Product;
  kiosks_name : string          (* kiosks.name *)
}.
End KioskInventory.

(** An element of the accumulator. *)
Record Aggregated := {
  product_id : string;
  product : Product;
  total_quantity : Z;
  kiosks : list (string * Z)    (* { kiosk, quantity } *)
}.

(** The branch taken when [acc.find] returned an entry: the entry is
    updated in place. *)
Definition bump (item : KioskInventory.t) (existing : Aggregated) : Aggregated :=
  {| product_id := product_id existing;
     product := product existing;
     total_quantity := total_quantity existing + KioskInventory.quantity item;
     kiosks := kiosks existing
               ++ [(KioskInventory.kiosks_name item, KioskInventory.quantity item)] |}.

Definition fresh (item : KioskInventory.t) : Aggregated :=
  {| product_id := KioskInventory.product_id item;
     product := KioskInventory.products item;
     total_quantity := KioskInventory.quantity item;
     kiosks := [(KioskInventory.kiosks_name item, KioskInventory.quantity item)] |}.

(** One call of the reducer. [find] returns the first entry with the
    item's product id, and the mutation goes through that reference: the
    first match is replaced where it stands; without a match the new entry
    is pushed at the end. *)
Fixpoint reducer (acc : list Aggregated) (item : KioskInventory.t) : list Aggregated :=
  match acc with
  | [] => [fresh item]
  | p :: rest =>
      if String.eqb (product_id p) (KioskInventory.product_id item)
      then bump item p :: rest
      else p :: reducer rest item
  end.

(** [inventoryItems?.reduce(reducer, [])] *)
Definition aggregatedProducts (inventoryItems : option (list KioskInventory.t))
  : option (list Aggregated) :=
  match inventoryItems with
  | Some rows => Some (fold_left reducer rows [])
  | None => None
  end.

(** The input rows of one product, in input order. *)
Definition rows_of (pid : string) (rows : list KioskInventory.t) : list KioskInventory.t :=
  List.filter (fun r => String.eqb pid (KioskInventory.product_id r)) rows.

Definition sum_quantities (rows : list KioskInventory.t) : Z :=
  fold_right Z.add 0%Z (map KioskInventory.quantity rows).

Definition kiosk_entries (rows : list KioskInventory.t) : list (string * Z) :=
  map (fun r => (KioskInventory.kiosks_name r, KioskInventory.quantity r)) rows.

End Inventory.

(* ===================================================================== *)
(** * The create dialog, [CreateRedistributionDialog] *)
(* ===================================================================== *)

Module Dialog.
Import Js Api.

(** ** [parseInt] with no radix *)

(** Strings are sequences of UTF-8 bytes. White space of ECMAScript:
    TAB, LF, VT, FF, CR, SP and, outside ASCII, U+00A0, U+1680,
    U+2000..U+200A, U+2028, U+2029, U+202F, U+205F, U+3000, U+FEFF. *)
Definition is_space (c : ascii) : bool :=
  let n := N_of_ascii c in
  ((9 <=? n) && (n <=? 13) || (n =? 32))%N.

Definition wide_space (b1 b2 b3 : N) : bool :=
  ((b1 =? 225) && (b2 =? 154) && (b3 =? 128)
   || (b1 =? 226) && (b2 =? 128)
      && ((128 <=? b3) && (b3 <=? 138) || (b3 =? 168) || (b3 =? 169) || (b3 =? 175))
   || (b1 =? 226) && (b2 =? 129) && (b3 =? 159)
   || (b1 =? 227) && (b2 =? 128) && (b3 =? 128)
   || (b1 =? 239) && (b2 =? 187) && (b3 =? 191))%N.

Fixpoint skip_spaces (s : string) : string :=
  match s with
  | String c rest =>
      if is_space c then skip_spaces rest
      else
        match rest with
        | String c2 rest2 =>
            if ((N_of_ascii c =? 194) && (N_of_ascii c2 =? 160))%N then skip_spaces rest2
            else
              match rest2 with
              | String c3 rest3 =>
                  if wide_space (N_of_ascii c) (N_of_ascii c2) (N_of_ascii c3)
                  then skip_spaces rest3 else s
              | EmptyString => s
              end
        | EmptyString => s
        end
  | EmptyString => s
  end.

Definition digit_value (c : ascii) : option N :=
  let n := N_of_ascii c in
  if ((48 <=? n) && (n <=? 57))%N then Some (n - 48)%N
  else if ((97 <=? n) && (n <=? 122))%N then Some (n - 87)%N
  else if ((65 <=? n) && (n <=? 90))%N then Some (n - 55)%N
  else None.

(** The longest prefix of digits of the radix; [None] when it is empty. *)
Fixpoint parse_digits (radix : N) (s : string) (acc : option N) : option N :=
  match s with
  | String c rest =>
      match digit_value c with
      | Some d =>
          if (d <? radix)%N
          then parse_digits radix rest (Some (default 0%N acc * radix + d)%N)
          else acc
      | None => acc
      end
  | EmptyString => acc
  end.

Definition strip_sign (s : string) : bool * string :=
  match s with
  | String "-" rest => (true, rest)
  | String "+" rest => (false, rest)
  | _ => (false, s)
  end.

Definition strip_hex_prefix (s : string) : N * string :=
  match s with
  | String "0" (String "x" rest) | String "0" (String "X" rest) => (16%N, rest)
  | _ => (10%N, s)
  end.

(** [parseInt(s)]; [None] is NaN. The result is the exact integer: a
    JavaScript number holds it exactly up to 2^53, and beyond that the
    builtin gives a double that is again at least 2^53, so that the
    comparisons with 0 and with an [available_quantity] read from an
    INTEGER column come out the same. *)
Definition parseInt (s : string) : option Z :=
  let (negative, s1) := strip_sign (skip_spaces s) in
  let (radix, s2) := strip_hex_prefix s1 in
  match parse_digits radix s2 None with
  | None => None
  | Some n => Some (if negative then (- Z.of_N n)%Z else Z.of_N n)
  end.

(** ** The form *)

(** An entry of the [products] query result. *)
Record ProductOption := {
  id : string;
  sku : string;
  name : string;
  unit : string;
  available_quantity : Z
}.

Record Form := {
  kioskId : option string;                   (* useAuth() *)
  toKioskId : string;
  selectedProduct : string;
  quantity : string;
  products : option (list ProductOption)     (* undefined until fetched *)
}.

Definition falsy_opt (o : option string) : bool :=
  match o with
  | Some s => String.eqb s ""
  | None => true
  end.

(** [products?.find(p => p.id === selectedProduct)] *)
Definition find_product (f : Form) : option ProductOption :=
  match products f with
  | Some ps => List.find (fun p => String.eqb (id p) (selectedProduct f)) ps
  | None => None
  end.

Definition client_req_id_of (w : World) : string :=
  "req-" ++ pretty (date_now w) ++ "-" ++ String.substring 2 9 (math_random_36 w).

(** The mutation function of [createMutation]. *)
Definition mutationFn (f : Form) : M jsval :=
  if falsy_opt (kioskId f) || String.eqb (toKioskId f) ""
     || String.eqb (selectedProduct f) "" || String.eqb (quantity f) ""
  then throw (Error "Please fill all fields")
  else
    match find_product f with
    | None => throw (Error "Product not found")
    | Some product =>
        match parseInt (quantity f) with
        | None => throw (Error "Invalid quantity")
        | Some qty =>
            if (qty <=? 0)%Z then throw (Error "Invalid quantity")
            else if (available_quantity product <? qty)%Z
            then throw (Error ("Only " ++ pretty (available_quantity product)
                                 ++ " units available"))
            else
              w ← ask;
              createRedistribution
                {| from_kiosk_id := default "" (kioskId f);
                   to_kiosk_id := toKioskId f;
                   items := [ {| Api.sku := sku product; Api.quantity := qty |} ];
                   client_req_id := client_req_id_of w;
                   signature := "";
                   public_key := "" |}
        end
    end.

End Dialog.

(* ===================================================================== *)
(** * The database schema *)
(* ===================================================================== *)

Module Schema.

(** ** Enums *)

Inductive enum_type := app_role | redistribution_status | command_status | transaction_status.

Definition enum_labels (e : enum_type) : list string :=
  match e with
  | app_role => ["admin"; "kiosk"]
  | redistribution_status =>
      ["requested"; "approved"; "submitted"; "fulfilled"; "reconciled"; "failed"; "timed_out"]
  | command_status => ["pending"; "processing"; "submitted"; "completed"; "failed"]
  | transaction_status => ["pending"; "confirmed"; "failed"]
  end.

(** ** Values and column types *)

Inductive sqlval :=
| VNull
| VUuid (u : string)
| VText (s : string)
| VBool (b : bool)
| VInt (z : Z)
| VNumeric (unscaled : Z) (scale : nat)
| VTimestamptz (t : Z)
| VJsonb (text : string)
| VEnum (label : string).

#[global] Instance sqlval_eq_dec : EqDecision sqlval.
Proof. solve_decision. Defined.

Inductive coltype :=
| TUuid | TText | TBoolean | TInteger | TBigint
| TNumeric (precision scale : nat)
| TTimestamptz | TJsonb
| TEnum (e : enum_type).

Definition string_in (s : string) (l : list string) : bool :=
  existsb (String.eqb s) l.

(** The values a column of a type stores; NULL is handled by the
    column's NOT NULL constraint. Rows hold values as they are stored: the
    assignment cast that brings a value of another numeric type or scale
    to the column's (rounding it) is not modelled. *)
Definition has_type (v : sqlval) (ty : coltype) : bool :=
  match v, ty with
  | VNull, _ => true
  | VUuid _, TUuid => true
  | VText _, TText => true
  | VBool _, TBoolean => true
  | VInt z, TInteger => ((-2147483648 <=? z) && (z <=? 2147483647))%Z
  | VInt z, TBigint => ((-9223372036854775808 <=? z) && (z <=? 9223372036854775807))%Z
  | VNumeric u sc, TNumeric pr sc' => (sc =? sc')%nat && (Z.abs u <? 10 ^ Z.of_nat pr)%Z
  | VTimestamptz _, TTimestamptz => true
  | VJsonb _, TJsonb => true
  | VEnum l, TEnum e => string_in l (enum_labels e)
  | _, _ => false
  end.

Inductive default_expr :=
| uuid_generate_v4
| NOW
| Const (v : sqlval).

Record column := {
  col_name : string;
  col_type : coltype;
  not_null : bool;
  col_default : option default_expr
}.

Definition col (n : string) (ty : coltype) (nn : bool) (d : option default_expr) : column :=
  {| col_name := n; col_type := ty; not_null := nn; col_default := d |}.

(** ** Tables. PRIMARY KEY makes a column NOT NULL; UNIQUE and REFERENCES
    constrain a row against other rows and are not part of a row's own
    well-formedness. *)

Inductive table :=
| users | admins | kiosks | products | kiosk_inventory | redistributions
| blockchain_commands | blockchain_txns | profiles | user_roles.

#[global] Instance table_eq_dec : EqDecision table.
Proof. solve_decision. Defined.

Definition pk : column := col "id" TUuid true (Some uuid_generate_v4).
Definition stamp (n : string) : column := col n TTimestamptz false (Some NOW).

Definition columns (t : table) : list column :=
  match t with
  | users =>
      [pk; col "email" TText true None; col "role" (TEnum app_role) true None;
       stamp "created_at"; stamp "updated_at"]
  | admins =>
      [pk; col "user_id" TUuid true None; col "wallet_address" TText true None;
       stamp "created_at"]
  | kiosks =>
      [pk; col "name" TText true None; col "location" TText true None;
       col "kiosk_code" TText true None; col "admin_id" TUuid false None;
       col "auto_approve" TBoolean false (Some (Const (VBool false)));
       col "inventory" TJsonb false (Some (Const (VJsonb "{}")));
       col "status" TText false (Some (Const (VText "active")));
       stamp "created_at"; stamp "updated_at"]
  | products =>
      [pk; col "sku" TText true None; col "name" TText true None;
       col "unit" TText true None; col "unit_price" (TNumeric 10 2) true None;
       col "acquired_price" (TNumeric 10 2) false None;
       col "suggested_price" (TNumeric 10 2) false None;
       col "quantity" TInteger false (Some (Const (VInt 0)));
       stamp "created_at"; stamp "updated_at"]
  | kiosk_inventory =>
      [pk; col "kiosk_id" TUuid true None; col "product_id" TUuid true None;
       col "quantity" TInteger true (Some (Const (VInt 0)));
       col "threshold" TInteger false (Some (Const (VInt 10)));
       stamp "last_updated"]
  | redistributions =>
      [pk; col "from_kiosk_id" TUuid true None; col "to_kiosk_id" TUuid true None;
       col "status" (TEnum redistribution_status) false (Some (Const (VEnum "requested")));
       col "items" TJsonb true None; col "pricing" TJsonb false None;
       col "blockchain_ref" TText false None; col "txid" TText false None;
       col "client_req_id" TText true None; col "signature" TText false None;
       col "public_key" TText false None; col "created_by" TUuid true None;
       stamp "created_at"; stamp "updated_at";
       col "completed_at" TTimestamptz false None]
  | blockchain_commands =>
      [pk; col "user_id" TUuid true None; col "client_req_id" TText true None;
       col "command_type" TText true None; col "payload" TJsonb true None;
       col "status" (TEnum command_status) false (Some (Const (VEnum "pending")));
       col "redistribution_id" TUuid true None; col "error_message" TText false None;
       stamp "created_at"; stamp "updated_at";
       col "processed_at" TTimestamptz false None]
  | blockchain_txns =>
      [pk; col "command_id" TUuid true None; col "redistribution_id" TUuid true None;
       col "txid" TText true None;
       col "chain" TText true (Some (Const (VText "algorand")));
       col "chain_id" TText true None;
       col "status" (TEnum transaction_status) false (Some (Const (VEnum "pending")));
       col "block" TBigint false None; col "confirmed_round" TBigint false None;
       col "fee" (TNumeric 18 6) false None; col "blockchain_ref" TText true None;
       stamp "created_at"; col "confirmed_at" TTimestamptz false None]
  | profiles =>
      [pk; col "user_id" TUuid true None; col "full_name" TText false None;
       col "kiosk_id" TUuid false None; stamp "created_at"; stamp "updated_at"]
  | user_roles =>
      [pk; col "user_id" TUuid true None; col "role" (TEnum app_role) true None;
       stamp "created_at"]
  end.

Definition column_names (t : table) : list string := map col_name (columns t).

(** A row: column name to value. *)
Abbreviation row := (gmap string sqlval).

(** [r.c] in an expression. *)
Definition field (r : row) (c : string) : sqlval := default VNull (r !! c).

(** ** INSERT *)

Record Env := {
  now : Z;                (* NOW() *)
  new_uuid : string       (* the next uuid_generate_v4() *)
}.

Definition eval_default (env : Env) (d : option default_expr) : sqlval :=
  match d with
  | Some uuid_generate_v4 => VUuid (new_uuid env)
  | Some NOW => VTimestamptz (now env)
  | Some (Const v) => v
  | None => VNull
  end.

Definition column_ok (c : column) (v : sqlval) : bool :=
  has_type v (col_type c)
  && negb (not_null c && bool_decide (v = VNull)).

Definition row_ok (t : table) (r : row) : bool :=
  forallb (fun c => match r !! col_name c with
                    | Some v => column_ok c v
                    | None => false
                    end) (columns t).

(** [INSERT INTO t (given columns) VALUES (...)], with [given] holding
    the values of the statement as cast to their columns' types: the
    columns not named take their default; [None] when a named column does
    not exist, a value is not one its column stores, or NOT NULL is
    violated. *)
Definition insert (env : Env) (t : table) (given : row) : option row :=
  if forallb (fun k => string_in k (column_names t)) (map fst (map_to_list given))
  then
    let r : row :=
      list_to_map (map (fun c => (col_name c,
                                  match given !! col_name c with
                                  | Some v => v
                                  | None => eval_default env (col_default c)
                                  end)) (columns t)) in
    if row_ok t r then Some r else None
  else None.

(** ** Triggers *)

(** [update_updated_at_column()]: assigning a field the record does not
    have is a run-time error. *)
Definition update_updated_at_column (env : Env) (NEW : row) : option row :=
  match NEW !! "updated_at" with
  | Some _ => Some (<[ "updated_at" := VTimestamptz (now env) ]> NEW)
  | None => None
  end.

Record trigger := {
  tg_name : string;
  tg_table : table;                       (* BEFORE UPDATE ON ..., FOR EACH ROW *)
  tg_function : Env -> row -> option row
}.

Definition before_update_triggers : list trigger :=
  [ {| tg_name := "update_redistributions_updated_at"; tg_table := redistributions;
       tg_function := update_updated_at_column |};
    {| tg_name := "update_kiosks_updated_at"; tg_table := kiosks;
       tg_function := update_updated_at_column |};
    {| tg_name := "update_products_updated_at"; tg_table := products;
       tg_function := update_updated_at_column |};
    {| tg_name := "update_profiles_updated_at"; tg_table := profiles;
       tg_function := update_updated_at_column |};
    {| tg_name := "update_commands_updated_at"; tg_table := blockchain_commands;
       tg_function := update_updated_at_column |} ].

(** The BEFORE UPDATE row triggers of a table, run on the row the UPDATE
    statement wrote; each receives the row the previous one returned. *)
Definition fire_before_update (env : Env) (t : table) (NEW : row) : option row :=
  fold_left (fun acc tg => acc ≫= tg_function tg env)
    (List.filter (fun tg => bool_decide (tg_table tg = t)) before_update_triggers)
    (Some NEW).

(** ** Row-level security *)

Record Database := {
  rows : table -> list row;
  auth_uid : sqlval               (* auth.uid(): NULL without a session *)
}.

(** Three-valued logic of SQL conditions. *)
Definition sql_eq (a b : sqlval) : option bool :=
  match a, b with
  | VNull, _ | _, VNull => None
  | _, _ => Some (bool_decide (a = b))
  end.

Definition sql_and (a b : option bool) : option bool :=
  match a, b with
  | Some false, _ | _, Some false => Some false
  | Some true, Some true => Some true
  | _, _ => None
  end.

Definition sql_or (a b : option bool) : option bool :=
  match a, b with
  | Some true, _ | _, Some true => Some true
  | Some false, Some false => Some false
  | _, _ => None
  end.

(** [EXISTS (SELECT 1 FROM t WHERE cond)]: some row makes the condition
    true (not false, not unknown). *)
Definition sql_exists (candidates : list row) (cond : row -> option bool) : bool :=
  existsb (fun r => bool_decide (cond r = Some true)) candidates.

Definition has_role_admin (db : Database) : bool :=
  sql_exists (rows db user_roles)
    (fun ur => sql_and (sql_eq (field ur "user_id") (auth_uid db))
                       (sql_eq (field ur "role") (VEnum "admin"))).

(** "Admins can view all redistributions" *)
Definition admins_can_view_all_redistributions (db : Database) (r : row) : bool :=
  has_role_admin db.

(** "Kiosks can view their own redistributions" *)
Definition kiosks_can_view_their_own_redistributions (db : Database) (r : row) : bool :=
  sql_exists (rows db profiles)
    (fun p => sql_and (sql_eq (field p "user_id") (auth_uid db))
                      (sql_or (sql_eq (field p "kiosk_id") (field r "from_kiosk_id"))
                              (sql_eq (field p "kiosk_id") (field r "to_kiosk_id")))).

(** "Kiosks can create redistributions" (WITH CHECK) *)
Definition kiosks_can_create_redistributions (db : Database) (r : row) : bool :=
  bool_decide (sql_and (sql_eq (field r "created_by") (auth_uid db))
                 (Some (sql_exists (rows db user_roles)
                    (fun ur => sql_and (sql_eq (field ur "user_id") (auth_uid db))
                                       (sql_eq (field ur "role") (VEnum "kiosk")))))
               = Some true).

(** "Admins can update redistributions" *)
Definition admins_can_update_redistributions (db : Database) (r : row) : bool :=
  has_role_admin db.

Inductive command := SELECT | INSERT | UPDATE | DELETE.

#[global] Instance command_eq_dec : EqDecision command.
Proof. solve_decision. Defined.

(** The policies on [redistributions], all permissive. *)
Definition redistributions_policies : list (command * (Database -> row -> bool)) :=
  [ (SELECT, admins_can_view_all_redistributions);
    (SELECT, kiosks_can_view_their_own_redistributions);
    (INSERT, kiosks_can_create_redistributions);
    (UPDATE, admins_can_update_redistributions) ].

(** With row-level security enabled a row passes when some permissive
    policy for the command accepts it; with no policy nothing passes. *)
Definition passes (cmd : command) (db : Database) (r : row) : bool :=
  existsb (fun pol => bool_decide (fst pol = cmd) && snd pol db r) redistributions_policies.

(** What [SELECT ... FROM redistributions] can return to the querying user. *)
Definition visible_redistributions (db : Database) : list row :=
  List.filter (passes SELECT db) (rows db redistributions).

End Schema.

(* ===================================================================== *)
(** * Properties of the REST client *)
(* ===================================================================== *)

Section ClientFacts.
Import Js Api.

(** Unfolds the plumbing of a client computation. *)
Ltac client_unfold :=
  unfold run, mbind, client_bind, mret, client_ret, ask, send, throw, lift in *;
  cbn in *.

(** What [getAuthToken] resolves to in a world. *)
Definition token_of (w : World) : option string :=
  match fst (run getAuthToken w) with
  | inr t => t
  | inl _ => None
  end.

(** The one request [apiRequest] sends. *)
Definition request_for (w : World) (endpoint : string) (options : RequestInit) : Request :=
  {| url := API_BASE_URL w ++ endpoint;
     req_method := method options;
     req_body := body options;
     req_headers := with_token (token_of w) (base_headers options) |}.

Lemma getAuthToken_run (w : World) :
  run getAuthToken w = (inr (token_of w), []) /\ token_of w <> Some "".
Proof.
  unfold token_of, getAuthToken. client_unfold.
  destruct (session w) as [s|]; cbn.
  - destruct (String.eqb_spec (access_token s) "") as [E|E]; cbn; split;
      try reflexivity; [discriminate | intros [= H]; contradiction].
  - split; [reflexivity | discriminate].
Qed.

(** What [throw new Error(v)] throws: the Error, or the TypeError of its
    construction. *)
Definition thrown_for (v : jsval) : exn :=
  match new_Error v with
  | inl e | inr e => e
  end.

(** Running [apiRequest]: exactly one request goes out, and the outcome
    is decided by the world's answer to it. *)
Lemma apiRequest_run (w : World) (endpoint : string) (options : RequestInit) :
  run (apiRequest endpoint options) w =
  (match fetch w (request_for w endpoint options) with
   | NetworkFailure reason => inl (TypeError reason)
   | Response ok (inl reason) => inl (SyntaxError reason)
   | Response ok (inr data) =>
       if ok then get data "data"
       else match get data "error" with
            | inl e => inl e
            | inr err =>
                match get_opt err "message" with
                | inl e => inl e
                | inr msg => inl (thrown_for (or_else msg (JStr "API request failed")))
                end
            end
   end, [request_for w endpoint options]).
Proof.
  unfold apiRequest, request_for, token_of, getAuthToken, thrown_for. client_unfold.
  destruct (fetch w _) as [reason | ok [reason | data]]; cbn; try reflexivity.
  destruct ok; cbn.
  - destruct (get data "data"); reflexivity.
  - destruct (get data "error") as [e | err]; cbn; [reflexivity |].
    destruct (get_opt err "message") as [e | msg]; [reflexivity |].
    destruct (new_Error _); reflexivity.
Qed.

Example list_endpoint_samples :
  list_endpoint "/redistributions" (Some [("status", PStr "requested")])
    = "/redistributions?status=requested"
  /\ list_endpoint "/redistributions" (Some []) = "/redistributions"
  /\ list_endpoint "/redistributions" None = "/redistributions"
  /\ list_endpoint "/transactions"
       (Some [("status", PStr "a b&c"); ("from_kiosk_id", PUndefined); ("limit", PNum 10)])
    = "/transactions?status=a+b%26c&limit=10".
Proof. split_and!; reflexivity. Qed.

(** The exported calls all go through [apiRequest] and pass no headers. *)
Lemma perform_is_apiRequest (c : call) :
  exists endpoint m b,
    perform c = apiRequest endpoint {| method := m; body := b; init_headers := None |}.
Proof. destruct c; cbn; do 3 eexists; reflexivity. Qed.

(** ** The outcome of a request *)

(** [data.error?.message] on a parsed body that is not [null]. *)
Definition error_message_of (data : jsval) : jsval :=
  if nullish (prop data "error") then JUndefined else prop (prop data "error") "message".

(** A response with status 204: [ok] is true and the body is empty. *)
Definition world_no_content : World :=
  {| VITE_API_URL := None;
     session := None;
     fetch := fun _ => Response true (inl "Unexpected end of JSON input");
     date_now := 0;
     math_random_36 := "0.4fzyo82mvyr" |}.

(** A failed response whose error message is the empty string. *)
Definition world_empty_message : World :=
  {| VITE_API_URL := None;
     session := None;
     fetch := fun _ => Response false
                (inr (JObj [("error", JObj [("message", JStr "")])]));
     date_now := 0;
     math_random_36 := "0.4fzyo82mvyr" |}.

(** C3, counterexample: the response has [ok] true and [apiRequest]
    throws all the same, because the body is not JSON and
    [response.json()] rejects before [response.ok] is looked at. *)
Lemma apiRequest_throws_on_ok_response :
  fetch world_no_content (request_for world_no_content "/health" no_options)
    = Response true (inl "Unexpected end of JSON input")
  /\ run getHealth world_no_content
    = (inl (SyntaxError "Unexpected end of JSON input"),
       [request_for world_no_content "/health" no_options]).
Proof.
  split; [reflexivity |].
  unfold getHealth. rewrite apiRequest_run. reflexivity.
Qed.

(** An [error.message] that is present but empty is replaced by the
    fallback text as well. *)
Lemma apiRequest_empty_message_fallback :
  fst (run getHealth world_empty_message) = inl (Error "API request failed").
Proof. unfold getHealth. rewrite apiRequest_run. reflexivity. Qed.

(** What the conversion of a message to a string gives. *)
Example to_string_samples :
  to_string (JStr "Not found") = Some "Not found"
  /\ to_string (JBool true) = Some "true"
  /\ to_string (JNum 404) = Some "404"
  /\ to_string (JNum (-7)) = Some "-7"
  /\ to_string (JNum 9007199254740993) = Some "9007199254740992"
  /\ to_string (JNum (2 ^ 64)) = Some "18446744073709552000"
  /\ to_string (JNum (10 ^ 21)) = Some "1e+21"
  /\ to_string (JNum (2 ^ 70)) = Some "1.1805916207174113e+21"
  /\ to_string (JNum (2 ^ 1024)) = Some "Infinity"
  /\ to_string (JArr []) = Some ""
  /\ to_string (JArr [JNull]) = Some ""
  /\ to_string (JArr [JNum 1; JArr [JNum 2; JNull]; JStr "a"]) = Some "1,2,,a"
  /\ to_string (JObj [("code", JNum 7)]) = Some "[object Object]"
  /\ to_string (JObj [("toString", JNum 1)]) = None
  /\ to_string (JArr [JObj [("toString", JNull)]]) = None.
Proof. split_and!; vm_compute; reflexivity. Qed.

(** A message that is a string is kept as it is. *)
Lemma thrown_for_string (s : string) : thrown_for (JStr s) = Error s.
Proof. reflexivity. Qed.

(** A truthy message is converted; the conversion of an object with an
    own [toString] throws instead. *)
Lemma thrown_for_truthy (v : jsval) :
  truthy v = true ->
  thrown_for v = match to_string v with
                 | Some s => Error s
                 | None => TypeError "Cannot convert object to primitive value"
                 end.
Proof.
  unfold thrown_for, new_Error. destruct v; try discriminate; intros _;
    match goal with |- context [to_string ?v] => destruct (to_string v) end; reflexivity.
Qed.

(** C3, as amended: when [fetch] resolves and the body parses to a JSON
    value other than [null], [apiRequest] throws if and only if
    [response.ok] is false. What it throws then is an [Error] with the
    message ['API request failed'] when [data.error?.message] is falsy (no
    [error], no [message], [null], [false], [0], the empty string), and an
    [Error] whose message is [data.error?.message] itself when that is a
    non-empty string. Any other truthy value is converted to a string by
    the [Error] constructor (an empty array gives the empty message, an
    object ['[object Object]']), and where that conversion fails the
    constructor's TypeError is thrown in place of the [Error]. When
    [response.ok] is true [apiRequest] returns exactly the [data] property
    of the parsed body. *)
Theorem apiRequest_outcome
  (w : World) (endpoint : string) (options : RequestInit) (ok : bool) (data : jsval) :
  fetch w (request_for w endpoint options) = Response ok (inr data) ->
  nullish data = false ->
  let res := fst (run (apiRequest endpoint options) w) in
  ((exists e, res = inl e) <-> ok = false)
  /\ (ok = false -> truthy (error_message_of data) = false ->
      res = inl (Error "API request failed"))
  /\ (ok = false -> forall s, s <> "" -> error_message_of data = JStr s ->
      res = inl (Error s))
  /\ (ok = false -> truthy (error_message_of data) = true ->
      res = inl (match to_string (error_message_of data) with
                 | Some s => Error s
                 | None => TypeError "Cannot convert object to primitive value"
                 end))
  /\ (ok = true -> res = inr (prop data "data")).
Proof.
  intros Hfetch Hdata res.
  assert (Hres : res = if ok then inr (prop data "data")
                       else inl (thrown_for (or_else (error_message_of data)
                                               (JStr "API request failed")))).
  { subst res. rewrite apiRequest_run, Hfetch. cbn.
    unfold get, get_opt, error_message_of. rewrite Hdata.
    destruct ok; [reflexivity |].
    destruct (nullish (prop data "error")) eqn:He; [reflexivity |].
    unfold get. rewrite He. reflexivity. }
  split_and!.
  - split.
    + intros [e He]. rewrite Hres in He. destruct ok; [discriminate | reflexivity].
    + intros ->. rewrite Hres. eauto.
  - intros -> Hfalsy. rewrite Hres. unfold or_else. rewrite Hfalsy. reflexivity.
  - intros -> s Hs Hm. rewrite Hres, Hm. unfold or_else. cbn.
    destruct (String.eqb_spec s ""); [contradiction | reflexivity].
  - intros -> Htruthy. rewrite Hres. unfold or_else. rewrite Htruthy.
    rewrite thrown_for_truthy by exact Htruthy. reflexivity.
  - intros ->. exact Hres.
Qed.

(** A failed response with a message, seen through [getRedistribution]. *)
Definition world_not_found : World :=
  {| VITE_API_URL := Some "https://api.example.test";
     session := Some {| access_token := "jwt" |};
     fetch := fun _ => Response false
                (inr (JObj [("error", JObj [("message", JStr "Redistribution not found")])]));
     date_now := 1700000000000;
     math_random_36 := "0.4fzyo82mvyr" |}.

Lemma apiRequest_outcome_witness :
  fst (run (apiRequest "/redistributions/r1" no_options) world_not_found)
  = inl (Error "Redistribution not found").
Proof.
  refine (proj1 (proj2 (proj2
    (apiRequest_outcome world_not_found "/redistributions/r1" no_options false
       (JObj [("error", JObj [("message", JStr "Redistribution not found")])])
       eq_refl eq_refl))) eq_refl "Redistribution not found" _ eq_refl).
  discriminate.
Defined.

(** ** Authentication of requests *)



(** Whatever [options.headers] holds, a token overrides its
    [Authorization] entry, and without a token [apiRequest] adds none. *)
Lemma apiRequest_authorization_any_options
  (w : World) (endpoint : string) (options : RequestInit) :
  let hs := req_headers (request_for w endpoint options) in
  (forall t, token_of w = Some t -> hs !! "Authorization" = Some ("Bearer " ++ t))
  /\ (token_of w = None ->
      hs !! "Authorization" = (init_headers options ≫= fun h => h !! "Authorization")).
Proof.
  destruct (getAuthToken_run w) as [_ Hne].
  cbn. unfold with_token, base_headers. split.
  - intros t Ht. rewrite Ht.
    destruct (String.eqb_spec t "") as [-> | Hnz]; [congruence |].
    apply lookup_insert_eq.
  - intros ->. destruct (init_headers options) as [h|]; cbn.
    + rewrite lookup_union_l; [reflexivity |].
      rewrite lookup_singleton_ne by discriminate. reflexivity.
    + rewrite lookup_singleton_ne by discriminate. reflexivity.
Qed.

End ClientFacts.

(* ===================================================================== *)
(** * Properties of the admin page *)
(* ===================================================================== *)

Section PageFacts.
Import Js Api Page.

Definition coloured_statuses : list string :=
  ["requested"; "approved"; "submitted"; "fulfilled"; "reconciled"; "failed"].

(** C9: [getStatusColor] is defined on every string; it returns
    ['bg-secondary'] exactly for the statuses other than the six it has a
    case for, and so for the lifecycle state ['timed_out']. *)
Theorem getStatusColor_default :
  (forall status : string,
      ~ In status coloured_statuses -> getStatusColor status = "bg-secondary")
  /\ (forall status : string,
      In status coloured_statuses -> getStatusColor status <> "bg-secondary")
  /\ In "timed_out" (Schema.enum_labels Schema.redistribution_status)
  /\ getStatusColor "timed_out" = "bg-secondary".
Proof.
  split_and!.
  - intros status Hnot. unfold getStatusColor.
    repeat match goal with
    | |- context [String.eqb status ?l] =>
        destruct (String.eqb_spec status l) as [-> | _];
        [exfalso; apply Hnot; cbn; tauto |]
    end.
    reflexivity.
  - intros status Hin. cbn in Hin.
    repeat destruct Hin as [<- | Hin]; try contradiction; cbn; discriminate.
  - cbn. tauto.
  - reflexivity.
Qed.

Lemma getStatusColor_default_witness : getStatusColor "cancelled" = "bg-secondary".
Proof.
  apply (proj1 getStatusColor_default "cancelled").
  cbn. intros H. repeat destruct H as [H | H]; try discriminate. exact H.
Defined.

(** ** The cache *)

Lemma invalidateQueries_lookup (filter key : list string) (c : gmap (list string) Query) :
  invalidateQueries filter c !! key
  = (fun q => if key_matches filter key then invalidate q else q) <$> c !! key.
Proof.
  unfold invalidateQueries. rewrite map_lookup_imap.
  destruct (c !! key); reflexivity.
Qed.

(** Invalidation marks queries and leaves their data alone. *)
Lemma invalidateQueries_data (filter key : list string) (c : gmap (list string) Query) :
  invalidateQueries filter c !! key ≫= data = c !! key ≫= data.
Proof.
  rewrite invalidateQueries_lookup.
  destruct (c !! key) as [q|]; cbn; [| reflexivity].
  destruct (key_matches filter key); reflexivity.
Qed.

(** The records of the cached list responses. *)
Definition cached (c : gmap (list string) Query) : list Redistribution.t :=
  concat (map (fun kq => response_items (data (snd kq))) (map_to_list c)).

Lemma in_cached (c : gmap (list string) Query) (r : Redistribution.t) :
  In r (cached c) <-> exists key q, c !! key = Some q /\ In r (response_items (data q)).
Proof.
  unfold cached. rewrite in_concat. split.
  - intros (l & Hl & Hr). apply in_map_iff in Hl as ([key q] & <- & Hkq).
    apply list_elem_of_In, elem_of_map_to_list in Hkq. eauto.
  - intros (key & q & Hq & Hr). exists (response_items (data q)). split; [| exact Hr].
    apply in_map_iff. exists (key, q). split; [reflexivity |].
    apply list_elem_of_In, elem_of_map_to_list. exact Hq.
Qed.

Lemma held_spec (st : State) (r : Redistribution.t) :
  In r (held st) <->
  selectedRedist st = Some r \/ selectedForDetails st = Some r \/ In r (cached (cache st)).
Proof.
  unfold held. fold (cached (cache st)). rewrite !in_app_iff.
  destruct (selectedRedist st), (selectedForDetails st); cbn; intuition congruence.
Qed.

(** ** The status field is read, never written *)

(** The property names of a request's JSON body. *)
Definition body_keys (rq : Request) : list string :=
  match req_body rq with
  | Some v => keys v
  | None => []
  end.

Lemma approveRedistribution_run
  (w : World) (redistributionId adminWallet : string) (clientReqId : option string) :
  exists rq,
    snd (run (approveRedistribution redistributionId adminWallet clientReqId) w) = [rq]
    /\ req_method rq = Some "POST"
    /\ url rq = API_BASE_URL w ++ "/redistributions/" ++ redistributionId ++ "/approve"
    /\ incl (body_keys rq) ["admin_wallet"; "client_req_id"].
Proof.
  unfold approveRedistribution. rewrite apiRequest_run. cbn.
  eexists. split_and!; try reflexivity.
  unfold body_keys. cbn. destruct clientReqId; cbn; intros k Hk; cbn in *; tauto.
Qed.

Lemma perform_never_sends_status (c : call) (w : World) :
  Forall (fun rq => ~ In "status" (body_keys rq)) (snd (run (perform c) w)).
Proof.
  destruct c;
    unfold perform, createRedistribution, approveRedistribution, getRedistribution,
      listRedistributions, getCommand, getTransaction, listTransactions, getHealth;
    rewrite apiRequest_run; cbn; (constructor; [| constructor]);
    unfold body_keys; cbn; try tauto.
  - intros H. repeat destruct H as [H | H]; try discriminate. exact H.
  - destruct clientReqId; cbn; intros H;
      repeat destruct H as [H | H]; try discriminate; exact H.
Qed.

Lemma run_ask {A} (k : World -> M A) (w : World) :
  run (w' ← ask; k w') w = run (k w) w.
Proof. reflexivity. Qed.

Lemma mutationFn_requests (w : World) (wallet : option string) (redistributionId : string) :
  Forall (fun rq => req_method rq = Some "POST" /\ ~ In "status" (body_keys rq))
    (snd (run (mutationFn wallet redistributionId) w)).
Proof.
  unfold mutationFn.
  destruct wallet as [a|]; [| constructor].
  destruct (String.eqb a ""); [constructor |].
  rewrite run_ask.
  set (creq := Some ("approve-" ++ redistributionId ++ "-" ++ pretty (date_now w))).
  pose proof (perform_never_sends_status
                (ApproveRedistribution redistributionId a creq) w) as Hns.
  destruct (approveRedistribution_run w redistributionId a creq) as (rq & Hsent & Hm & _).
  unfold perform in Hns. rewrite Hsent in *.
  inversion Hns; subst. constructor; [split; assumption | constructor].
Qed.

Lemma confirmApprove_state (w : World) (st : State) :
  (confirmApprove w st).1.1 = st \/ (confirmApprove w st).1.1 = set_pending st.
Proof.
  unfold confirmApprove. destruct (selectedRedist st); [| left; reflexivity].
  destruct (run _ w). right. reflexivity.
Qed.

Lemma confirmApprove_sent (w : World) (st : State) :
  Forall (fun rq => req_method rq = Some "POST" /\ ~ In "status" (body_keys rq))
    (confirmApprove w st).1.2.
Proof.
  unfold confirmApprove. destruct (selectedRedist st) as [redist|]; [| constructor].
  pose proof (mutationFn_requests w (adminWallet st) (Redistribution.id redist)) as H.
  destruct (run _ w). exact H.
Qed.

(** A step of the page creates no redistribution record: what it holds
    afterwards it held before or was handed by the event. *)
Lemma step_frame (w : World) (e : Event) (st : State) (r : Redistribution.t) :
  In r (held (step w e st).1) -> In r (held st) \/ In r (brought_in e).
Proof.
  rewrite !held_spec. destruct e; cbn.
  - intros [[= ->] | H]; [right; left; reflexivity | left; tauto].
  - destruct (confirmApprove w st) as [[st' rqs] o] eqn:E. cbn.
    destruct (confirmApprove_state w st) as [H | H]; rewrite E in H; cbn in H;
      subst st'; cbn; tauto.
  - tauto.
  - tauto.
  - intros [H | [[= ->] | H]]; [left; tauto | right; left; reflexivity | left; tauto].
  - tauto.
  - tauto.
  - destruct outcome as [err | res]; cbn; [tauto |].
    intros [H | [H | H]]; [discriminate | left; tauto |].
    left. right. right. apply in_cached in H as (key & q & Hq & Hr).
    pose proof (invalidateQueries_data ["admin-redistributions"] key (cache st)) as Hd.
    rewrite Hq in Hd. rewrite invalidateQueries_lookup in Hq.
    destruct (cache st !! key) as [q0|] eqn:Hq0; [| discriminate].
    apply in_cached. exists key, q0. split; [exact Hq0 |].
    change (data q = data q0) in Hd. rewrite <- Hd. exact Hr.
  - intros [H | [H | H]]; [left; tauto | left; tauto |].
    apply in_cached in H as (key' & q & Hq & Hr).
    destruct (decide (key = key')) as [<- | Hne].
    + rewrite lookup_insert_eq in Hq. injection Hq as <-. right. exact Hr.
    + rewrite lookup_insert_ne in Hq by exact Hne.
      left. right. right. apply in_cached. eauto.
Qed.

(** ** The approve mutation and the cache *)

Definition sample_redistribution : Redistribution.t :=
  {| Redistribution.id := "r1";
     Redistribution.from_kiosk_id := "k1";
     Redistribution.to_kiosk_id := "k2";
     Redistribution.status := "requested";
     Redistribution.items := [JObj [("sku", JStr "PROD-001"); ("quantity", JNum 5)]];
     Redistribution.pricing := None;
     Redistribution.blockchain_ref := None;
     Redistribution.txid := None;
     Redistribution.created_at := "2025-01-01T00:00:00Z";
     Redistribution.updated_at := "2025-01-01T00:00:00Z";
     Redistribution.completed_at := None |}.

(** The admin page with one pending request, selected in the approve
    dialog, and the admin wallet loaded. *)
Definition sample_page : State :=
  {| selectedRedist := Some sample_redistribution;
     approveDialogOpen := true;
     detailsDialogOpen := false;
     selectedForDetails := None;
     approveMutation_isPending := false;
     cache :=
       {[ ["admin-redistributions"] :=
            {| data := Some (DList {| ListRedistributionsResponse.items := [sample_redistribution];
                                      ListRedistributionsResponse.total := 1;
                                      ListRedistributionsResponse.limit := 50;
                                      ListRedistributionsResponse.offset := 0 |});
               isInvalidated := false |};
          ["admin-wallet"] :=
            {| data := Some (DWallet "WALLET"); isInvalidated := false |} ]} |}.

Definition world_approving : World :=
  {| VITE_API_URL := None;
     session := Some {| access_token := "jwt" |};
     fetch := fun _ => Response true
                (inr (JObj [("data", JObj [("command_id", JStr "c1");
                                           ("redistribution_id", JStr "r1");
                                           ("status", JStr "pending")])]));
     date_now := 1700000000000;
     math_random_36 := "0.4fzyo82mvyr" |}.

(** C7, counterexample: the approval is confirmed and its request is in
    flight, and the page still lists the same entry with status
    ['requested']: the cache is the one from before the click. *)
Lemma approve_in_flight_keeps_cache :
  length (confirmApprove world_approving sample_page).1.2 = 1
  /\ approveMutation_isPending (confirmApprove world_approving sample_page).1.1 = true
  /\ redistributions (confirmApprove world_approving sample_page).1.1 = [sample_redistribution]
  /\ Redistribution.status sample_redistribution = "requested"
  /\ cache (confirmApprove world_approving sample_page).1.1 = cache sample_page.
Proof.
  assert (Hst : (confirmApprove world_approving sample_page).1.1 = set_pending sample_page).
  { unfold confirmApprove.
    change (selectedRedist sample_page) with (Some sample_redistribution).
    destruct (run (mutationFn (adminWallet sample_page)
                     (Redistribution.id sample_redistribution)) world_approving).
    reflexivity. }
  rewrite Hst. split_and!; reflexivity.
Qed.

(** C7, as amended: the approve mutation makes no optimistic update.
    While the request is in flight the cache is the one from before; when
    the mutation settles, with success or with an error, every query still
    has the data it had; success only marks the queries under
    ['admin-redistributions'] as invalidated, so that they are fetched
    again, and an error leaves the cache as it was. *)
Theorem approve_mutation_not_optimistic (w : World) (st : State) :
  let st1 := (confirmApprove w st).1.1 in
  cache st1 = cache st
  /\ redistributions st1 = redistributions st
  /\ allRedistributions st1 = allRedistributions st
  /\ (forall outcome key, query_data (settle outcome st1).1 key = query_data st key)
  /\ (forall res key,
        cache (settle (inr res) st1).1 !! key
        = (fun q => if key_matches ["admin-redistributions"] key then invalidate q else q)
            <$> cache st !! key)
  /\ (forall err, cache (settle (inl err) st1).1 = cache st).
Proof.
  intros st1.
  assert (Hc : cache st1 = cache st).
  { subst st1. destruct (confirmApprove_state w st) as [-> | ->]; reflexivity. }
  split_and!.
  - exact Hc.
  - unfold redistributions, query_data. rewrite Hc. reflexivity.
  - unfold allRedistributions, query_data. rewrite Hc. reflexivity.
  - intros [err | res] key; unfold query_data; cbn.
    + rewrite Hc. reflexivity.
    + rewrite invalidateQueries_data, Hc. reflexivity.
  - intros res key. cbn. rewrite invalidateQueries_lookup, Hc. reflexivity.
  - intros err. cbn. exact Hc.
Qed.

(** On the sample page: after a successful approval the pending list is
    marked for refetching and still holds the entry. *)
Lemma approve_success_invalidates_sample :
  let st1 := (confirmApprove world_approving sample_page).1.1 in
  let st2 := (settle (inr JUndefined) st1).1 in
  isInvalidated <$> cache st2 !! ["admin-redistributions"] = Some true
  /\ isInvalidated <$> cache st2 !! ["admin-wallet"] = Some false
  /\ redistributions st2 = [sample_redistribution].
Proof. split_and!; vm_compute; reflexivity. Qed.

End PageFacts.

(* ===================================================================== *)
(** * Properties of the inventory aggregation *)
(* ===================================================================== *)

Section InventoryFacts.
Import Inventory.

Abbreviation pid_of := KioskInventory.product_id.

Lemma sum_quantities_app (l1 l2 : list KioskInventory.t) :
  sum_quantities (l1 ++ l2) = (sum_quantities l1 + sum_quantities l2)%Z.
Proof.
  unfold sum_quantities. induction l1 as [| r l1 IH]; cbn; [reflexivity |].
  rewrite map_app in *. cbn in *. rewrite IH. lia.
Qed.

Lemma rows_of_snoc (pid : string) (seen : list KioskInventory.t) (item : KioskInventory.t) :
  rows_of pid (seen ++ [item])
  = (rows_of pid seen ++ if String.eqb pid (pid_of item) then [item] else [])%list.
Proof. unfold rows_of. rewrite List.filter_app. reflexivity. Qed.

(** The product ids of the accumulator after one call of the reducer. *)
Lemma reducer_ids (acc : list Aggregated) (item : KioskInventory.t) :
  map product_id (reducer acc item)
  = (map product_id acc
     ++ if existsb (fun p => String.eqb (product_id p) (pid_of item)) acc
        then [] else [pid_of item])%list.
Proof.
  induction acc as [| p acc IH]; cbn; [reflexivity |].
  destruct (String.eqb (product_id p) (pid_of item)); cbn.
  - rewrite app_nil_r. reflexivity.
  - rewrite IH. reflexivity.
Qed.

Lemma existsb_ids (acc : list Aggregated) (pid : string) :
  existsb (fun p => String.eqb (product_id p) pid) acc = true
  <-> In pid (map product_id acc).
Proof.
  rewrite existsb_exists, in_map_iff. split.
  - intros (p & Hp & He). apply String.eqb_eq in He. eauto.
  - intros (p & He & Hp). exists p. split; [exact Hp |]. apply String.eqb_eq. exact He.
Qed.

(** Where an entry of the new accumulator comes from, when product ids
    do not repeat: an untouched entry of another product, the updated
    entry of the item's product, or a new entry. *)
Lemma reducer_entries (acc : list Aggregated) (item : KioskInventory.t) (e' : Aggregated) :
  List.NoDup (map product_id acc) ->
  In e' (reducer acc item) ->
  (In e' acc /\ product_id e' <> pid_of item)
  \/ (exists e, In e acc /\ product_id e = pid_of item /\ e' = bump item e)
  \/ (e' = fresh item /\ ~ In (pid_of item) (map product_id acc)).
Proof.
  induction acc as [| p acc IH]; cbn; intros Hnd Hin.
  - destruct Hin as [<- | []]. right. right. split; [reflexivity | tauto].
  - apply List.NoDup_cons_iff in Hnd as [Hp Hnd'].
    destruct (String.eqb_spec (product_id p) (pid_of item)) as [Heq | Hne].
    + destruct Hin as [<- | Hin].
      * right. left. exists p. split_and!; auto.
      * left. split; [right; exact Hin |].
        intros He. apply Hp. rewrite Heq, <- He. apply in_map. exact Hin.
    + destruct Hin as [<- | Hin].
      * left. split; [left; reflexivity | exact Hne].
      * destruct (IH Hnd' Hin) as [[H1 H2] | [(e & H1 & H2 & H3) | [H1 H2]]].
        -- left. split; [right; exact H1 | exact H2].
        -- right. left. exists e. split_and!; auto.
        -- right. right. split; [exact H1 |]. intros [H | H]; [congruence | tauto].
Qed.

Lemma rows_of_none (pid : string) (seen : list KioskInventory.t) :
  ~ In pid (map pid_of seen) -> rows_of pid seen = [].
Proof.
  unfold rows_of. induction seen as [| r seen IH]; cbn; [reflexivity |].
  intros H. destruct (String.eqb_spec pid (pid_of r)) as [-> | _]; [tauto |].
  apply IH. tauto.
Qed.

(** What the accumulator holds after the rows [seen]. *)
Definition summarises (seen : list KioskInventory.t) (acc : list Aggregated) : Prop :=
  List.NoDup (map product_id acc)
  /\ (forall pid, In pid (map product_id acc) <-> In pid (map pid_of seen))
  /\ (forall e, In e acc ->
        total_quantity e = sum_quantities (rows_of (product_id e) seen)
        /\ kiosks e = kiosk_entries (rows_of (product_id e) seen)).

Lemma reducer_summarises
  (seen : list KioskInventory.t) (acc : list Aggregated) (item : KioskInventory.t) :
  summarises seen acc -> summarises (seen ++ [item]) (reducer acc item).
Proof.
  intros (Hnd & Hids & Hent). unfold summarises. split_and!.
  - rewrite reducer_ids.
    destruct (existsb _ acc) eqn:Hex; [rewrite app_nil_r; exact Hnd |].
    apply List.NoDup_app; [exact Hnd | repeat constructor; tauto |].
    intros x Hx Hx'. cbn in Hx'. destruct Hx' as [<- | []].
    apply existsb_ids in Hx. congruence.
  - intros pid. rewrite reducer_ids, map_app, !in_app_iff, Hids. cbn.
    destruct (existsb _ acc) eqn:Hex; cbn; [| tauto].
    apply existsb_ids, Hids in Hex. intuition congruence.
  - intros e' Hin. rewrite !rows_of_snoc.
    destruct (reducer_entries acc item e' Hnd Hin)
      as [[H1 H2] | [(e & H1 & H2 & ->) | [-> H2]]].
    + destruct (String.eqb_spec (product_id e') (pid_of item)); [contradiction |].
      rewrite app_nil_r. apply Hent. exact H1.
    + destruct (Hent e H1) as [Ht Hk]. cbn. rewrite H2, String.eqb_refl.
      rewrite sum_quantities_app. unfold kiosk_entries at 1. rewrite map_app.
      rewrite <- H2. fold (kiosk_entries (rows_of (product_id e) seen)).
      rewrite <- Ht, <- Hk. split; [unfold sum_quantities; cbn; lia | reflexivity].
    + cbn. rewrite String.eqb_refl.
      assert (Hnone : rows_of (pid_of item) seen = []).
      { apply rows_of_none. intros H. apply H2, Hids. exact H. }
      rewrite Hnone. cbn. split; [unfold sum_quantities; cbn; lia | reflexivity].
Qed.

Lemma fold_reducer_summarises (rows : list KioskInventory.t) :
  summarises rows (fold_left reducer rows []).
Proof.
  induction rows as [| item seen IH] using rev_ind.
  - unfold summarises. cbn. split_and!; [constructor | tauto | tauto].
  - rewrite fold_left_app. cbn. apply reducer_summarises. exact IH.
Qed.

(** C10: for every list of kiosk-inventory rows the reduce returns a
    list in which no product id repeats and the product ids are those of
    the input; each entry's [total_quantity] is the sum of the quantities
    of the input rows of its product, and its [kiosks] list has one
    [{kiosk, quantity}] entry per such row, in input order. *)
Theorem aggregatedProducts_spec (rows : list KioskInventory.t) :
  exists agg,
    aggregatedProducts (Some rows) = Some agg
    /\ List.NoDup (map product_id agg)
    /\ (forall pid, In pid (map product_id agg) <-> In pid (map pid_of rows))
    /\ (forall e, In e agg ->
          total_quantity e = sum_quantities (rows_of (product_id e) rows)
          /\ kiosks e = kiosk_entries (rows_of (product_id e) rows)).
Proof.
  exists (fold_left reducer rows []). split; [reflexivity |].
  exact (fold_reducer_summarises rows).
Qed.

Definition row_at (kiosk product : string) (qty : Z) : KioskInventory.t :=
  {| KioskInventory.id := kiosk ++ "/" ++ product;
     KioskInventory.kiosk_id := kiosk;
     KioskInventory.product_id := product;
     KioskInventory.quantity := qty;
     KioskInventory.threshold := Some 20%Z;
     KioskInventory.products :=
       {| id := product; sku := product; name := product; unit := "unit";
          unit_price := 250; acquired_price := Some 150%Z;
          suggested_price := Some 300%Z; quantity := 1000 |};
     KioskInventory.kiosks_name := kiosk |}.

(** Three rows of two products. *)
Example aggregatedProducts_sample :
  (fun agg => map (fun e => (product_id e, total_quantity e, kiosks e)) agg)
    <$> aggregatedProducts
          (Some [row_at "Airport" "P1" 50; row_at "Mall" "P2" 100; row_at "Downtown" "P1" 150])
  = Some [("P1", 200%Z, [("Airport", 50%Z); ("Downtown", 150%Z)]);
          ("P2", 100%Z, [("Mall", 100%Z)])].
Proof. reflexivity. Qed.

End InventoryFacts.

(* ===================================================================== *)
(** * Properties of the create dialog *)
(* ===================================================================== *)

Section DialogFacts.
Import Js Api.

Example parseInt_samples :
  Dialog.parseInt "42" = Some 42%Z
  /\ Dialog.parseInt "  -7px" = Some (-7)%Z
  /\ Dialog.parseInt "3.9" = Some 3%Z
  /\ Dialog.parseInt "1e3" = Some 1%Z
  /\ Dialog.parseInt "0x1f" = Some 31%Z
  /\ Dialog.parseInt ".5" = None
  /\ Dialog.parseInt "abc" = None
  /\ Dialog.parseInt "" = None
  /\ Dialog.parseInt "0x" = None.
Proof. split_and!; reflexivity. Qed.

(** All four fields are filled in: the first guard of the mutation passes. *)
Definition filled (f : Dialog.Form) : Prop :=
  (exists k, Dialog.kioskId f = Some k /\ k <> "")
  /\ Dialog.toKioskId f <> ""
  /\ Dialog.selectedProduct f <> ""
  /\ Dialog.quantity f <> "".

Lemma filled_guard (f : Dialog.Form) :
  filled f <->
  Dialog.falsy_opt (Dialog.kioskId f) || String.eqb (Dialog.toKioskId f) ""
  || String.eqb (Dialog.selectedProduct f) "" || String.eqb (Dialog.quantity f) "" = false.
Proof.
  unfold filled, Dialog.falsy_opt. rewrite !orb_false_iff, !String.eqb_neq.
  destruct (Dialog.kioskId f) as [k|].
  - rewrite String.eqb_neq. split.
    + intros ((k' & [= <-] & Hk) & H2 & H3 & H4). tauto.
    + intros (((Hk & H2) & H3) & H4). split_and!; eauto.
  - split.
    + intros ((k' & [=] & _) & _).
    + intros (((H & _) & _) & _). discriminate.
Qed.

(** The request the dialog builds from a valid form. *)
Definition request_of (w : World) (f : Dialog.Form) (product : Dialog.ProductOption) (qty : Z)
  : CreateRedistributionRequest :=
  {| from_kiosk_id := default "" (Dialog.kioskId f);
     to_kiosk_id := Dialog.toKioskId f;
     items := [ {| sku := Dialog.sku product; quantity := qty |} ];
     client_req_id := Dialog.client_req_id_of w;
     signature := "";
     public_key := "" |}.

(** The mutation function, case by case. *)
Lemma mutationFn_cases (w : World) (f : Dialog.Form) :
  run (Dialog.mutationFn f) w =
  if Dialog.falsy_opt (Dialog.kioskId f) || String.eqb (Dialog.toKioskId f) ""
     || String.eqb (Dialog.selectedProduct f) "" || String.eqb (Dialog.quantity f) ""
  then (inl (Error "Please fill all fields"), [])
  else match Dialog.find_product f with
       | None => (inl (Error "Product not found"), [])
       | Some product =>
           match Dialog.parseInt (Dialog.quantity f) with
           | None => (inl (Error "Invalid quantity"), [])
           | Some qty =>
               if (qty <=? 0)%Z then (inl (Error "Invalid quantity"), [])
               else if (Dialog.available_quantity product <? qty)%Z
               then (inl (Error ("Only " ++ pretty (Dialog.available_quantity product)
                                   ++ " units available")), [])
               else run (createRedistribution (request_of w f product qty)) w
           end
       end.
Proof.
  unfold Dialog.mutationFn.
  destruct (_ || _ || _ || _); [reflexivity |].
  destruct (Dialog.find_product f) as [product|]; [| reflexivity].
  destruct (Dialog.parseInt (Dialog.quantity f)) as [qty|]; [| reflexivity].
  destruct (qty <=? 0)%Z; [reflexivity |].
  destruct (Dialog.available_quantity product <? qty)%Z; [reflexivity |].
  rewrite run_ask. reflexivity.
Qed.

(** The quantity the user typed fails the validation: it does not parse,
    is not positive, or exceeds what the selected product has. *)
Definition bad_quantity (f : Dialog.Form) : Prop :=
  match Dialog.parseInt (Dialog.quantity f) with
  | None => True
  | Some qty =>
      (qty <= 0)%Z
      \/ exists product, Dialog.find_product f = Some product
                         /\ (Dialog.available_quantity product < qty)%Z
  end.

Definition water : Dialog.ProductOption :=
  {| Dialog.id := "p1"; Dialog.sku := "PROD-001"; Dialog.name := "Water Bottle";
     Dialog.unit := "unit"; Dialog.available_quantity := 150 |}.

(** C6, as amended: in every state of the form, a quantity that parses
    to NaN, is not positive, or exceeds the selected product's
    [available_quantity] makes the mutation raise an error and send
    nothing. An empty field gives ['Please fill all fields'] and a product
    that is not in the list ['Product not found'], whatever the quantity.
    When the four fields are filled and the product is found, the error is
    ['Invalid quantity'] in the first two cases and
    ['Only N units available'] in the third, and a quantity that passes
    sends exactly one request, a POST to [/redistributions] whose [items]
    list is the single entry of the product's sku and the parsed quantity. *)
Theorem createMutation_validation (w : World) (f : Dialog.Form) :
  (bad_quantity f ->
     (exists msg, fst (run (Dialog.mutationFn f) w) = inl (Error msg))
     /\ snd (run (Dialog.mutationFn f) w) = [])
  /\ (~ filled f ->
       run (Dialog.mutationFn f) w = (inl (Error "Please fill all fields"), []))
  /\ (filled f -> Dialog.find_product f = None ->
       run (Dialog.mutationFn f) w = (inl (Error "Product not found"), []))
  /\ (forall product, filled f -> Dialog.find_product f = Some product ->
       (Dialog.parseInt (Dialog.quantity f) = None
        \/ exists qty, Dialog.parseInt (Dialog.quantity f) = Some qty /\ (qty <= 0)%Z) ->
       run (Dialog.mutationFn f) w = (inl (Error "Invalid quantity"), []))
  /\ (forall product qty, filled f -> Dialog.find_product f = Some product ->
       Dialog.parseInt (Dialog.quantity f) = Some qty ->
       (0 < qty)%Z -> (Dialog.available_quantity product < qty)%Z ->
       run (Dialog.mutationFn f) w
       = (inl (Error ("Only " ++ pretty (Dialog.available_quantity product)
                        ++ " units available")), []))
  /\ (forall product qty, filled f -> Dialog.find_product f = Some product ->
       Dialog.parseInt (Dialog.quantity f) = Some qty ->
       (0 < qty)%Z -> (qty <= Dialog.available_quantity product)%Z ->
       exists rq req,
         snd (run (Dialog.mutationFn f) w) = [rq]
         /\ req_method rq = Some "POST"
         /\ url rq = API_BASE_URL w ++ "/redistributions"
         /\ req_body rq = Some (request_to_js req)
         /\ items req = [ {| sku := Dialog.sku product; quantity := qty |} ]
         /\ Some (from_kiosk_id req) = Dialog.kioskId f
         /\ to_kiosk_id req = Dialog.toKioskId f).
Proof.
  rewrite mutationFn_cases. split_and!.
  - unfold bad_quantity. intros Hbad.
    destruct (_ || _ || _ || _); [cbn; eauto |].
    destruct (Dialog.find_product f) as [product|]; [| cbn; eauto].
    destruct (Dialog.parseInt (Dialog.quantity f)) as [qty|]; [| cbn; eauto].
    destruct (Z.leb_spec qty 0); [cbn; eauto |].
    destruct (Z.ltb_spec (Dialog.available_quantity product) qty); [cbn; eauto |].
    destruct Hbad as [Hle | (product' & [= <-] & Hlt)]; lia.
  - intros Hnf. destruct (_ || _ || _ || _) eqn:Hg; [reflexivity |].
    apply filled_guard in Hg. contradiction.
  - intros Hf%filled_guard Hp. rewrite Hf, Hp. reflexivity.
  - intros product Hf%filled_guard Hp Hq. rewrite Hf, Hp.
    destruct Hq as [-> | (qty & -> & Hle)]; [reflexivity |].
    destruct (Z.leb_spec qty 0); [reflexivity | lia].
  - intros product qty Hf%filled_guard Hp Hq Hpos Hlt. rewrite Hf, Hp, Hq.
    destruct (Z.leb_spec qty 0); [lia |].
    destruct (Z.ltb_spec (Dialog.available_quantity product) qty); [reflexivity | lia].
  - intros product qty Hf Hp Hq Hpos Hle.
    pose proof Hf as ((k & Hk & _) & _).
    apply filled_guard in Hf. rewrite Hf, Hp, Hq.
    destruct (Z.leb_spec qty 0); [lia |].
    destruct (Z.ltb_spec (Dialog.available_quantity product) qty); [lia |].
    unfold createRedistribution. rewrite apiRequest_run. cbn.
    eexists _, (request_of w f product qty). split_and!; try reflexivity.
    cbn. rewrite Hk. reflexivity.
Qed.

(** A valid form: 5 of the 150 bottles, to kiosk [k2]. *)
Definition form_valid : Dialog.Form :=
  {| Dialog.kioskId := Some "k1";
     Dialog.toKioskId := "k2";
     Dialog.selectedProduct := "p1";
     Dialog.quantity := "5";
     Dialog.products := Some [water] |}.

Lemma createMutation_validation_witness :
  exists rq req,
    snd (run (Dialog.mutationFn form_valid) world_approving) = [rq]
    /\ req_method rq = Some "POST"
    /\ url rq = API_BASE_URL world_approving ++ "/redistributions"
    /\ req_body rq = Some (request_to_js req)
    /\ items req = [ {| sku := "PROD-001"; quantity := 5 |} ]
    /\ Some (from_kiosk_id req) = Some "k1"
    /\ to_kiosk_id req = "k2".
Proof.
  refine (proj2 (proj2 (proj2 (proj2 (proj2
            (createMutation_validation world_approving form_valid)))))
            water 5%Z _ eq_refl eq_refl _ _).
  - unfold filled. cbn. split_and!; try discriminate.
    exists "k1". split; [reflexivity | discriminate].
  - reflexivity.
  - cbn. discriminate.
Defined.

End DialogFacts.

(* ===================================================================== *)
(** * Properties of the schema *)
(* ===================================================================== *)

Section SchemaFacts.
Import Schema.

(** ** The status column *)

Lemma column_names_NoDup (t : table) : NoDup (column_names t).
Proof. destruct t; apply (bool_decide_unpack _); vm_compute; reflexivity. Qed.

(** A row that an INSERT produced has, in each column, the value given
    for it or else the column's default. *)
Lemma insert_lookup (env : Env) (t : table) (given r : row) (c : column) :
  insert env t given = Some r ->
  In c (columns t) ->
  r !! col_name c = Some (match given !! col_name c with
                          | Some v => v
                          | None => eval_default env (col_default c)
                          end).
Proof.
  unfold insert. intros H Hc.
  destruct (forallb _ _); [| discriminate].
  destruct (row_ok t _); [| discriminate].
  injection H as <-.
  apply elem_of_list_to_map_1.
  - rewrite <- list_fmap_compose.
    change (NoDup (col_name <$> columns t)). apply column_names_NoDup.
  - apply list_elem_of_In, in_map_iff. exists c. split; [reflexivity | exact Hc].
Qed.

Definition status_column : column :=
  col "status" (TEnum redistribution_status) false (Some (Const (VEnum "requested"))).

(** C1: the status column of [redistributions] has the enum type
    [redistribution_status]; the values other than NULL that this type
    admits are exactly the seven labels ['requested'], ['approved'],
    ['submitted'], ['fulfilled'], ['reconciled'], ['failed'] and
    ['timed_out']; and a row inserted without a status has status
    ['requested']. *)
Theorem status_column_default :
  In status_column (columns redistributions)
  /\ (forall v, v <> VNull ->
       (has_type v (col_type status_column) = true
        <-> exists label, v = VEnum label
              /\ In label ["requested"; "approved"; "submitted"; "fulfilled";
                           "reconciled"; "failed"; "timed_out"]))
  /\ (forall env given r,
       given !! "status" = None ->
       insert env redistributions given = Some r ->
       r !! "status" = Some (VEnum "requested")).
Proof.
  split_and!.
  - cbn. tauto.
  - intros v Hv.
    change (col_type status_column) with (TEnum redistribution_status).
    destruct v as [| u | s | b | z | u sc | ts | text | label]; try contradiction;
      try (split; [discriminate | intros (l & [=] & _)]).
    change (has_type (VEnum label) (TEnum redistribution_status))
      with (string_in label (enum_labels redistribution_status)).
    unfold string_in. rewrite existsb_exists. split.
    + intros (l & Hl & He). apply String.eqb_eq in He as ->. eauto.
    + intros (l & [= ->] & Hl). exists l. split; [exact Hl | apply String.eqb_refl].
  - intros env given r Hg Hins.
    assert (Hc : In status_column (columns redistributions)) by (cbn; tauto).
    pose proof (insert_lookup env redistributions given r status_column Hins Hc) as H.
    cbn in H. rewrite Hg in H. exact H.
Qed.

Definition sample_env : Env := {| now := 1700000000; new_uuid := "r1" |}.

(** [INSERT INTO redistributions (from_kiosk_id, to_kiosk_id, items,
    client_req_id, created_by) VALUES (...)] *)
Definition sample_insert : row :=
  {[ "from_kiosk_id" := VUuid "k1";
     "to_kiosk_id" := VUuid "k2";
     "items" := VJsonb "[]";
     "client_req_id" := VText "req-1";
     "created_by" := VUuid "u1" ]}.

Lemma sample_insert_ok : is_Some (insert sample_env redistributions sample_insert).
Proof.
  unfold insert.
  assert (H1 : forallb (fun k => string_in k (column_names redistributions))
                 (map fst (map_to_list sample_insert)) = true)
    by (vm_compute; reflexivity).
  rewrite H1.
  match goal with |- context [row_ok redistributions ?r] =>
    assert (H2 : row_ok redistributions r = true) by (vm_compute; reflexivity);
    rewrite H2
  end.
  eauto.
Qed.

Lemma status_column_default_witness :
  insert sample_env redistributions sample_insert ≫= (fun r => r !! "status")
  = Some (VEnum "requested").
Proof.
  destruct sample_insert_ok as [r E]. rewrite E.
  refine (proj2 (proj2 status_column_default) sample_env sample_insert r _ E).
  vm_compute. reflexivity.
Defined.

(** ** The [updated_at] triggers *)

Definition tables_with_trigger : list table :=
  [redistributions; kiosks; products; profiles; blockchain_commands].

Lemma fire_before_update_triggered (env : Env) (t : table) (NEW : row) :
  In t tables_with_trigger ->
  fire_before_update env t NEW = update_updated_at_column env NEW.
Proof.
  intros Ht. cbn in Ht.
  repeat destruct Ht as [<- | Ht]; try contradiction; reflexivity.
Qed.

Lemma row_ok_has_updated_at (t : table) (r : row) :
  In t tables_with_trigger -> row_ok t r = true -> is_Some (r !! "updated_at").
Proof.
  intros Ht Hok. unfold row_ok in Hok. rewrite forallb_forall in Hok.
  specialize (Hok (stamp "updated_at")).
  change (col_name (stamp "updated_at")) with "updated_at" in Hok.
  destruct (r !! "updated_at"); [eauto |].
  assert (Hin : In (stamp "updated_at") (columns t)).
  { cbn in Ht. repeat destruct Ht as [<- | Ht]; try contradiction; cbn; tauto. }
  specialize (Hok Hin). discriminate.
Qed.

(** C8: on [redistributions], [kiosks], [products], [profiles] and
    [blockchain_commands], the BEFORE UPDATE trigger turns the row written
    by an UPDATE into the same row with [updated_at] set to the current
    time: every other column keeps the value the statement wrote. *)
Theorem updated_at_trigger (env : Env) (t : table) (NEW : row) :
  In t tables_with_trigger ->
  row_ok t NEW = true ->
  exists r,
    fire_before_update env t NEW = Some r
    /\ r !! "updated_at" = Some (VTimestamptz (now env))
    /\ (forall c, c <> "updated_at" -> r !! c = NEW !! c)
    /\ row_ok t r = true.
Proof.
  intros Ht Hok.
  destruct (row_ok_has_updated_at t NEW Ht Hok) as [old Hold].
  rewrite (fire_before_update_triggered env t NEW Ht).
  unfold update_updated_at_column. rewrite Hold.
  eexists. split_and!; [reflexivity | apply lookup_insert_eq | |].
  - intros c Hc. apply lookup_insert_ne. congruence.
  - unfold row_ok in *. rewrite forallb_forall in *. intros c Hc.
    specialize (Hok c Hc).
    destruct (String.eqb_spec (col_name c) "updated_at") as [Hn | Hn].
    + rewrite Hn, lookup_insert_eq. rewrite Hn, Hold in Hok.
      assert (Hstamp : c = stamp "updated_at").
      { cbn in Ht. repeat destruct Ht as [<- | Ht]; try contradiction;
          cbn in Hc; repeat destruct Hc as [<- | Hc]; try contradiction;
          first [reflexivity | discriminate Hn]. }
      subst c. reflexivity.
    + rewrite lookup_insert_ne by congruence. exact Hok.
Qed.

(** The row an admin's [UPDATE redistributions SET status = 'approved']
    writes, a while after the insert. *)
Definition sample_written : row :=
  <[ "status" := VEnum "approved" ]>
    (default ∅ (insert sample_env redistributions sample_insert)).

Definition later_env : Env := {| now := 1700000500; new_uuid := "r2" |}.

Lemma updated_at_trigger_witness :
  exists r,
    fire_before_update later_env redistributions sample_written = Some r
    /\ r !! "updated_at" = Some (VTimestamptz 1700000500)
    /\ r !! "status" = Some (VEnum "approved")
    /\ r !! "created_at" = Some (VTimestamptz 1700000000).
Proof.
  destruct (updated_at_trigger later_env redistributions sample_written)
    as (r & Hfire & Hstamp & Hframe & _).
  - cbn. tauto.
  - vm_compute. reflexivity.
  - exists r. split_and!; [exact Hfire | exact Hstamp | |].
    + rewrite Hframe by discriminate. vm_compute. reflexivity.
    + rewrite Hframe by discriminate. vm_compute. reflexivity.
Defined.

(** The tables without such a trigger keep the row as written. *)
Lemma fire_before_update_untriggered (env : Env) (t : table) (NEW : row) :
  ~ In t tables_with_trigger -> fire_before_update env t NEW = Some NEW.
Proof.
  intros Ht. destruct t; try reflexivity; exfalso; apply Ht; cbn; tauto.
Qed.

(** ** Who can read a redistribution *)

Lemma sql_eq_true (a b : sqlval) :
  sql_eq a b = Some true <-> a = b /\ a <> VNull.
Proof.
  unfold sql_eq. split.
  - destruct a, b; intros [= H%bool_decide_eq_true]; (split; [exact H | discriminate]).
  - intros [<- Ha]. destruct a; try contradiction;
      f_equal; apply bool_decide_eq_true; reflexivity.
Qed.

Lemma sql_and_true (x y : option bool) :
  sql_and x y = Some true <-> x = Some true /\ y = Some true.
Proof. destruct x as [[]|], y as [[]|]; cbn; intuition discriminate. Qed.

Lemma sql_or_true (x y : option bool) :
  sql_or x y = Some true <-> x = Some true \/ y = Some true.
Proof. destruct x as [[]|], y as [[]|]; cbn; intuition discriminate. Qed.

Lemma sql_exists_true (candidates : list row) (cond : row -> option bool) :
  sql_exists candidates cond = true <-> exists r, In r candidates /\ cond r = Some true.
Proof.
  unfold sql_exists. rewrite existsb_exists.
  split; intros (r & Hr & Hc); exists r; (split; [exact Hr |]).
  - apply bool_decide_eq_true in Hc. exact Hc.
  - apply bool_decide_eq_true. exact Hc.
Qed.

(** The querying user has a [user_roles] entry with role ['admin']. *)
Definition is_admin (db : Database) : Prop :=
  exists ur, In ur (rows db user_roles)
             /\ field ur "user_id" = auth_uid db /\ auth_uid db <> VNull
             /\ field ur "role" = VEnum "admin".

(** Some profile of the querying user has the kiosk the row comes from
    or goes to. *)
Definition own_kiosk (db : Database) (r : row) : Prop :=
  exists p, In p (rows db profiles)
            /\ field p "user_id" = auth_uid db /\ auth_uid db <> VNull
            /\ field p "kiosk_id" <> VNull
            /\ (field p "kiosk_id" = field r "from_kiosk_id"
                \/ field p "kiosk_id" = field r "to_kiosk_id").

Lemma has_role_admin_spec (db : Database) : has_role_admin db = true <-> is_admin db.
Proof.
  unfold has_role_admin, is_admin. rewrite sql_exists_true.
  split; intros (ur & Hur & H); exists ur; (split; [exact Hur |]).
  - apply sql_and_true in H as [[H1 H1']%sql_eq_true [H2 _]%sql_eq_true].
    split_and!; congruence.
  - destruct H as (H1 & H1' & H2). apply sql_and_true. split; apply sql_eq_true.
    + split; congruence.
    + split; [exact H2 | rewrite H2; discriminate].
Qed.

Lemma kiosks_policy_spec (db : Database) (r : row) :
  kiosks_can_view_their_own_redistributions db r = true <-> own_kiosk db r.
Proof.
  unfold kiosks_can_view_their_own_redistributions, own_kiosk. rewrite sql_exists_true.
  split; intros (p & Hp & H); exists p; (split; [exact Hp |]).
  - apply sql_and_true in H as [[H1 H1']%sql_eq_true H2%sql_or_true].
    split_and!; try congruence.
    + destruct H2 as [[_ H]%sql_eq_true | [_ H]%sql_eq_true]; exact H.
    + destruct H2 as [[H _]%sql_eq_true | [H _]%sql_eq_true]; tauto.
  - destruct H as (H1 & H1' & H2 & H3). apply sql_and_true. split.
    + apply sql_eq_true. split; congruence.
    + apply sql_or_true. destruct H3 as [H3 | H3]; [left | right];
        apply sql_eq_true; split; assumption.
Qed.

Lemma passes_select (db : Database) (r : row) :
  passes SELECT db r
  = admins_can_view_all_redistributions db r
    || kiosks_can_view_their_own_redistributions db r.
Proof. unfold passes. cbn. rewrite !orb_false_r. reflexivity. Qed.

(** C5: under the SELECT policies on [redistributions], a user with an
    ['admin'] entry in [user_roles] reads every row; a user without one
    reads a row only if a profile of theirs has the row's [from_kiosk_id]
    or [to_kiosk_id] as its [kiosk_id]; a row that neither policy accepts
    is not returned. *)
Theorem redistributions_select_policies (db : Database) (r : row) :
  (is_admin db -> passes SELECT db r = true)
  /\ (~ is_admin db -> passes SELECT db r = true -> own_kiosk db r)
  /\ (passes SELECT db r = true <-> is_admin db \/ own_kiosk db r)
  /\ (In r (visible_redistributions db)
      <-> In r (rows db redistributions) /\ (is_admin db \/ own_kiosk db r)).
Proof.
  assert (Hiff : passes SELECT db r = true <-> is_admin db \/ own_kiosk db r).
  { rewrite passes_select, orb_true_iff.
    unfold admins_can_view_all_redistributions.
    rewrite has_role_admin_spec, kiosks_policy_spec. reflexivity. }
  split_and!.
  - intros Ha. apply Hiff. left. exact Ha.
  - intros Hna Hp. apply Hiff in Hp as [Ha | Hk]; [contradiction | exact Hk].
  - exact Hiff.
  - unfold visible_redistributions. rewrite List.filter_In, Hiff. reflexivity.
Qed.

(** A kiosk user [u1] of kiosk [k1], and two redistributions: one from
    [k1], one between two other kiosks. *)
Definition transfer (id from to : string) : row :=
  {[ "id" := VUuid id; "from_kiosk_id" := VUuid from; "to_kiosk_id" := VUuid to;
     "status" := VEnum "requested" ]}.

Definition kiosk_session : Database :=
  {| rows := fun t =>
       match t with
       | user_roles => [ {[ "user_id" := VUuid "u1"; "role" := VEnum "kiosk" ]} ]
       | profiles => [ {[ "user_id" := VUuid "u1"; "kiosk_id" := VUuid "k1" ]};
                       {[ "user_id" := VUuid "u9"; "kiosk_id" := VUuid "k2" ]} ]
       | redistributions => [ transfer "r1" "k1" "k2"; transfer "r2" "k2" "k3" ]
       | _ => []
       end;
     auth_uid := VUuid "u1" |}.

Lemma redistributions_select_policies_witness :
  own_kiosk kiosk_session (transfer "r1" "k1" "k2").
Proof.
  apply (proj1 (proj2 (redistributions_select_policies kiosk_session
                         (transfer "r1" "k1" "k2")))).
  - intros (ur & Hur & _ & _ & Hrole). cbn in Hur.
    destruct Hur as [<- | []]. vm_compute in Hrole. discriminate.
  - vm_compute. reflexivity.
Defined.

Example kiosk_session_visible :
  visible_redistributions kiosk_session = [transfer "r1" "k1" "k2"].
Proof.
  assert (H1 : passes SELECT kiosk_session (transfer "r1" "k1" "k2") = true)
    by (vm_compute; reflexivity).
  assert (H2 : passes SELECT kiosk_session (transfer "r2" "k2" "k3") = false)
    by (vm_compute; reflexivity).
  unfold visible_redistributions.
  change (rows kiosk_session redistributions)
    with [transfer "r1" "k1" "k2"; transfer "r2" "k2" "k3"].
  cbn [List.filter]. rewrite H1, H2. reflexivity.
Qed.

(** Without a session [auth.uid()] is NULL and no row is visible. *)
Example anonymous_sees_nothing :
  length (visible_redistributions {| rows := rows kiosk_session; auth_uid := VNull |}) = 0.
Proof. vm_compute. reflexivity. Qed.

End SchemaFacts.

(* ===================================================================== *)
(** * The status field across the repository *)
(* ===================================================================== *)

Section StatusFacts.
Import Js Api Page.

(** A BEFORE UPDATE trigger changes no column but [updated_at]. *)
Lemma fire_before_update_frame (env : Schema.Env) (t : Schema.table)
  (NEW r : gmap string Schema.sqlval) :
  Schema.fire_before_update env t NEW = Some r ->
  forall c, c <> "updated_at" -> r !! c = NEW !! c.
Proof.
  intros H c Hc.
  assert (Hcases : Schema.fire_before_update env t NEW = Some NEW
                   \/ Schema.fire_before_update env t NEW
                      = Schema.update_updated_at_column env NEW).
  { destruct t; first [left; reflexivity | right; reflexivity]. }
  destruct Hcases as [H' | H']; rewrite H' in H.
  - injection H as <-. reflexivity.
  - unfold Schema.update_updated_at_column in H.
    destruct (NEW !! "updated_at"); [| discriminate].
    injection H as <-. apply lookup_insert_ne. congruence.
Qed.

(** C2: nothing in the repository assigns the status of a redistribution.
    [approveRedistribution] sends one POST to the approve endpoint whose
    body has only [admin_wallet] and [client_req_id]; no exported call
    sends a body with a [status] property; a step of the admin page holds
    afterwards only records it held before or was handed by the event (a
    clicked entry, a server response), and the requests it sends are such
    POSTs; the pending list is a GET filtered by [status=requested]; and
    the one trigger function of the schema returns the row with the
    status the statement wrote. *)
Theorem status_is_only_read :
  (forall w redistributionId adminWallet clientReqId,
      exists rq,
        snd (run (approveRedistribution redistributionId adminWallet clientReqId) w) = [rq]
        /\ req_method rq = Some "POST"
        /\ url rq = API_BASE_URL w ++ "/redistributions/" ++ redistributionId ++ "/approve"
        /\ incl (body_keys rq) ["admin_wallet"; "client_req_id"])
  /\ (forall c w,
        Forall (fun rq => ~ In "status" (body_keys rq)) (snd (run (perform c) w)))
  /\ (forall w e st,
        (forall r, In r (held (step w e st).1) -> In r (held st) \/ In r (brought_in e))
        /\ Forall (fun rq => req_method rq = Some "POST" /\ ~ In "status" (body_keys rq))
             (sent (step w e st).2))
  /\ (forall w,
        exists rq,
          snd (run pending_queryFn w) = [rq]
          /\ req_method rq = None /\ req_body rq = None
          /\ url rq = API_BASE_URL w ++ "/redistributions?status=requested")
  /\ (forall env t NEW r,
        Schema.fire_before_update env t NEW = Some r -> r !! "status" = NEW !! "status").
Proof.
  split_and!; [| | | | intros env t NEW r H;
                       apply (fire_before_update_frame env t NEW r H); discriminate].
  - exact approveRedistribution_run.
  - exact perform_never_sends_status.
  - intros w e st. split; [intros r; apply step_frame |].
    destruct e; cbn; try constructor.
    + pose proof (confirmApprove_sent w st) as H.
      destruct (confirmApprove w st) as [[st' rqs] o]. exact H.
    + destruct (settle outcome st). constructor.
  - intros w. unfold pending_queryFn, listRedistributions. rewrite apiRequest_run.
    eexists. split_and!; reflexivity.
Qed.

End StatusFacts.

(* ===================================================================== *)
(** * More on the REST client *)
(* ===================================================================== *)

Section ClientMore.
Import Js Api.

(** Whatever comes back, [apiRequest] has sent its one request; it throws
    when [fetch] rejects, when the body is not JSON and when the body is
    the JSON value [null], whether or not [response.ok] is true. *)
Theorem apiRequest_failure_modes (w : World) (endpoint : string) (options : RequestInit) :
  snd (run (apiRequest endpoint options) w) = [request_for w endpoint options]
  /\ url (request_for w endpoint options) = API_BASE_URL w ++ endpoint
  /\ (forall reason,
        fetch w (request_for w endpoint options) = NetworkFailure reason ->
        fst (run (apiRequest endpoint options) w) = inl (TypeError reason))
  /\ (forall ok reason,
        fetch w (request_for w endpoint options) = Response ok (inl reason) ->
        fst (run (apiRequest endpoint options) w) = inl (SyntaxError reason))
  /\ (forall ok data,
        fetch w (request_for w endpoint options) = Response ok (inr data) ->
        nullish data = true ->
        exists what, fst (run (apiRequest endpoint options) w) = inl (TypeError what)).
Proof.
  rewrite apiRequest_run. split_and!; try reflexivity.
  - intros reason ->. reflexivity.
  - intros ok reason ->. reflexivity.
  - intros ok data -> Hnull. cbn. unfold get. rewrite Hnull.
    destruct ok; eauto.
Qed.

(** A server that answers [null] with status 200. *)
Definition world_null_body : World :=
  {| VITE_API_URL := None;
     session := None;
     fetch := fun _ => Response true (inr JNull);
     date_now := 0;
     math_random_36 := "0.4fzyo82mvyr" |}.

Lemma apiRequest_failure_modes_witness :
  exists what, fst (run (apiRequest "/health" no_options) world_null_body) = inl (TypeError what).
Proof.
  exact (proj2 (proj2 (proj2 (proj2
           (apiRequest_failure_modes world_null_body "/health" no_options))))
           true JNull eq_refl eq_refl).
Defined.

(** Headers a caller passes in [options.headers] are spread after the
    default [Content-Type], so they reach the request unchanged and a
    caller's [Content-Type] replaces the default; only [Authorization] is
    replaced, and only when there is a token. *)
Theorem apiRequest_caller_headers
  (w : World) (endpoint : string) (options : RequestInit) (h : gmap string string) :
  init_headers options = Some h ->
  exists rq,
    snd (run (apiRequest endpoint options) w) = [rq]
    /\ (forall k, k <> "Authorization" -> k <> "Content-Type" ->
          req_headers rq !! k = h !! k)
    /\ req_headers rq !! "Content-Type"
       = Some (default "application/json" (h !! "Content-Type"))
    /\ req_headers rq !! "Authorization"
       = match token_of w with
         | Some t => Some ("Bearer " ++ t)
         | None => h !! "Authorization"
         end.
Proof.
  intros Hh. destruct (getAuthToken_run w) as [_ Hne].
  exists (request_for w endpoint options).
  split; [rewrite apiRequest_run; reflexivity |].
  cbn. unfold base_headers, with_token. rewrite Hh.
  assert (Hbase : forall k, k <> "Content-Type" ->
            (h ∪ {["Content-Type" := "application/json"]}) !! k = h !! k).
  { intros k Hk. destruct (h !! k) as [v|] eqn:E.
    - apply lookup_union_Some_l. exact E.
    - apply lookup_union_None. split; [exact E |].
      apply lookup_singleton_ne. congruence. }
  assert (Hct : (h ∪ {["Content-Type" := "application/json"]}) !! "Content-Type"
                = Some (default "application/json" (h !! "Content-Type"))).
  { destruct (h !! "Content-Type") as [v|] eqn:E; cbn.
    - apply lookup_union_Some_l. exact E.
    - rewrite lookup_union_r by exact E. apply lookup_singleton_eq. }
  destruct (token_of w) as [t|].
  - destruct (String.eqb_spec t "") as [-> | Hnz]; [contradiction |].
    split_and!.
    + intros k Hk1 Hk2. rewrite lookup_insert_ne by congruence. apply Hbase, Hk2.
    + rewrite lookup_insert_ne by discriminate. exact Hct.
    + apply lookup_insert_eq.
  - split_and!.
    + intros k _ Hk2. apply Hbase, Hk2.
    + exact Hct.
    + apply Hbase. discriminate.
Qed.

Lemma apiRequest_caller_headers_witness :
  exists rq,
    snd (run (apiRequest "/health"
                {| method := None; body := None;
                   init_headers := Some {[ "Content-Type" := "text/plain";
                                           "X-Trace" := "abc" ]} |})
           world_not_found) = [rq]
    /\ req_headers rq !! "X-Trace" = Some "abc"
    /\ req_headers rq !! "Content-Type" = Some "text/plain"
    /\ req_headers rq !! "Authorization" = Some "Bearer jwt".
Proof.
  destruct (apiRequest_caller_headers world_not_found "/health"
              {| method := None; body := None;
                 init_headers := Some {[ "Content-Type" := "text/plain";
                                         "X-Trace" := "abc" ]} |}
              {[ "Content-Type" := "text/plain"; "X-Trace" := "abc" ]} eq_refl)
    as (rq & Hsent & Hother & Hct & Hauth).
  exists rq. split_and!.
  - exact Hsent.
  - rewrite Hother by discriminate. vm_compute. reflexivity.
  - rewrite Hct. vm_compute. reflexivity.
  - rewrite Hauth. reflexivity.
Defined.

(** Each exported call sends exactly one request, to a path under
    [API_BASE_URL]; the two writing calls are POSTs with a JSON body, the
    six reading calls name no method and carry no body. *)
Theorem perform_request_shape (c : call) (w : World) :
  exists rq endpoint,
    snd (run (perform c) w) = [rq]
    /\ url rq = API_BASE_URL w ++ "/" ++ endpoint
    /\ match c with
       | CreateRedistribution _ | ApproveRedistribution _ _ _ =>
           req_method rq = Some "POST" /\ exists props, req_body rq = Some (JObj props)
       | _ => req_method rq = None /\ req_body rq = None
       end.
Proof.
  destruct c;
    unfold perform, createRedistribution, approveRedistribution, getRedistribution,
      listRedistributions, getCommand, getTransaction, listTransactions, getHealth,
      list_endpoint;
    rewrite apiRequest_run; cbn [snd];
    try (destruct (String.eqb (query_string (query_entries params)) ""));
    eexists _, _; (split; [reflexivity |]); (split; [cbn; reflexivity |]);
    cbn; eauto.
Qed.

End ClientMore.

(* ===================================================================== *)
(** * Query strings of the list calls *)
(* ===================================================================== *)

Section QueryFacts.
Import Js Api.

Lemma append_empty (a b : string) : a ++ b = "" -> a = "" /\ b = "".
Proof. destruct a; cbn; [auto | discriminate]. Qed.

Lemma concat_cons2 (sep x y : string) (l : list string) :
  String.concat sep (x :: y :: l) = x ++ sep ++ String.concat sep (y :: l).
Proof. reflexivity. Qed.

Definition encode_entry (kv : string * string) : string :=
  urlencode (fst kv) ++ "=" ++ urlencode (snd kv).

Lemma query_string_encode (entries : list (string * string)) :
  query_string entries = String.concat "&" (map encode_entry entries).
Proof. reflexivity. Qed.

Lemma encode_entry_nonempty (kv : string * string) : encode_entry kv <> "".
Proof.
  unfold encode_entry. intros H. apply append_empty in H as [_ H]. discriminate.
Qed.

Lemma query_string_empty (entries : list (string * string)) :
  query_string entries = "" <-> entries = [].
Proof.
  split; [| intros ->; reflexivity].
  rewrite query_string_encode.
  destruct entries as [| e [| e' rest]]; [reflexivity | |]; cbn [map].
  - cbn. intros H. destruct (encode_entry_nonempty e H).
  - rewrite concat_cons2. intros H. apply append_empty in H as [H _].
    destruct (encode_entry_nonempty e H).
Qed.



(** ** Decoding, to show that nothing is lost *)

Definition unhex (c : ascii) : option N :=
  let n := N_of_ascii c in
  if ((48 <=? n) && (n <=? 57))%N then Some (n - 48)%N
  else if ((65 <=? n) && (n <=? 70))%N then Some (n - 55)%N
  else if ((97 <=? n) && (n <=? 102))%N then Some (n - 87)%N
  else None.

Fixpoint urldecode (s : string) : option string :=
  match s with
  | EmptyString => Some ""
  | String c rest =>
      if Ascii.eqb c "+" then String " " <$> urldecode rest
      else if Ascii.eqb c "%" then
        match rest with
        | String h (String l rest') =>
            match unhex h, unhex l with
            | Some a, Some b => String (ascii_of_N (16 * a + b)) <$> urldecode rest'
            | _, _ => None
            end
        | _ => None
        end
      else String c <$> urldecode rest
  end.

Lemma urldecode_byte (c : ascii) (rest : string) :
  urldecode (urlencode_byte c ++ rest) = String c <$> urldecode rest.
Proof. destruct c as [[] [] [] [] [] [] [] []]; reflexivity. Qed.

Lemma urldecode_urlencode (s : string) : urldecode (urlencode s) = Some s.
Proof.
  induction s as [| c s IH]; [reflexivity |].
  cbn [urlencode]. rewrite urldecode_byte, IH. reflexivity.
Qed.

(** Occurrences of a separator. *)
Fixpoint has_char (sep : ascii) (s : string) : bool :=
  match s with
  | EmptyString => false
  | String c rest => Ascii.eqb c sep || has_char sep rest
  end.

Lemma has_char_app (sep : ascii) (a b : string) :
  has_char sep (a ++ b) = has_char sep a || has_char sep b.
Proof.
  induction a as [| c a IH]; [reflexivity |].
  change (has_char sep (String c a ++ b))
    with (Ascii.eqb c sep || has_char sep (a ++ b)).
  rewrite IH, orb_assoc. reflexivity.
Qed.

Lemma urlencode_byte_no_amp (c : ascii) : has_char "&" (urlencode_byte c) = false.
Proof. destruct c as [[] [] [] [] [] [] [] []]; reflexivity. Qed.

Lemma urlencode_byte_no_eq (c : ascii) : has_char "=" (urlencode_byte c) = false.
Proof. destruct c as [[] [] [] [] [] [] [] []]; reflexivity. Qed.

Lemma urlencode_no_sep (s : string) :
  has_char "&" (urlencode s) = false /\ has_char "=" (urlencode s) = false.
Proof.
  induction s as [| c s [IH1 IH2]]; [split; reflexivity |].
  cbn [urlencode]. rewrite !has_char_app, IH1, IH2, urlencode_byte_no_amp, urlencode_byte_no_eq.
  split; reflexivity.
Qed.

(** The pieces between separators. *)
Fixpoint split_on (sep : ascii) (s : string) : list string :=
  match s with
  | EmptyString => [""]
  | String c rest =>
      if Ascii.eqb c sep then "" :: split_on sep rest
      else match split_on sep rest with
           | piece :: pieces => String c piece :: pieces
           | [] => [String c ""]
           end
  end.

Lemma split_on_plain (sep : ascii) (a : string) :
  has_char sep a = false -> split_on sep a = [a].
Proof.
  induction a as [| c a IH]; simpl; [reflexivity |].
  intros [H1 H2]%orb_false_iff. rewrite H1, (IH H2). reflexivity.
Qed.

Lemma split_on_app (sep : ascii) (a b : string) :
  has_char sep a = false ->
  split_on sep (a ++ String sep b) = a :: split_on sep b.
Proof.
  induction a as [| c a IH]; simpl.
  - intros _. rewrite Ascii.eqb_refl. reflexivity.
  - intros [H1 H2]%orb_false_iff. rewrite H1, (IH H2). reflexivity.
Qed.

Definition decode_entry (s : string) : option (string * string) :=
  match split_on "=" s with
  | [k; v] =>
      match urldecode k, urldecode v with
      | Some k', Some v' => Some (k', v')
      | _, _ => None
      end
  | _ => None
  end.

Definition decode_query (s : string) : list (option (string * string)) :=
  if String.eqb s "" then [] else map decode_entry (split_on "&" s).

Lemma decode_encode_entry (kv : string * string) : decode_entry (encode_entry kv) = Some kv.
Proof.
  destruct kv as [k v]. unfold decode_entry, encode_entry. cbn [fst snd].
  change (urlencode k ++ "=" ++ urlencode v)
    with (urlencode k ++ String "=" (urlencode v)).
  rewrite split_on_app by apply urlencode_no_sep.
  rewrite split_on_plain by apply urlencode_no_sep.
  rewrite !urldecode_urlencode. reflexivity.
Qed.

Lemma encode_entry_no_amp (kv : string * string) : has_char "&" (encode_entry kv) = false.
Proof.
  unfold encode_entry. rewrite !has_char_app.
  rewrite (proj1 (urlencode_no_sep (fst kv))), (proj1 (urlencode_no_sep (snd kv))).
  reflexivity.
Qed.

Lemma split_concat_entries (e : string * string) (entries : list (string * string)) :
  split_on "&" (String.concat "&" (map encode_entry (e :: entries)))
  = map encode_entry (e :: entries).
Proof.
  revert e. induction entries as [| e' entries IH]; intros e.
  - cbn. apply split_on_plain, encode_entry_no_amp.
  - cbn [map]. rewrite concat_cons2.
    change (encode_entry e ++ "&" ++ String.concat "&" (encode_entry e' :: map encode_entry entries))
      with (encode_entry e ++ String "&"
              (String.concat "&" (map encode_entry (e' :: entries)))).
    rewrite split_on_app by apply encode_entry_no_amp.
    rewrite IH. reflexivity.
Qed.

Lemma decode_query_string (entries : list (string * string)) :
  decode_query (query_string entries) = map Some entries.
Proof.
  unfold decode_query.
  destruct (String.eqb_spec (query_string entries) "") as [E | E].
  - apply query_string_empty in E as ->. reflexivity.
  - destruct entries as [| e entries]; [contradiction E; reflexivity |].
    rewrite query_string_encode, split_concat_entries, map_map.
    apply map_ext. intros kv. apply decode_encode_entry.
Qed.

(** The query string loses nothing: two lists of defined parameters with
    the same query string are the same list, keys, values and order; and
    an encoded key or value never contains [&] or [=], so the separators
    are unambiguous. *)
Theorem query_string_injective :
  (forall entries1 entries2 : list (string * string),
      query_string entries1 = query_string entries2 -> entries1 = entries2)
  /\ (forall s, has_char "&" (urlencode s) = false /\ has_char "=" (urlencode s) = false).
Proof.
  split; [| exact urlencode_no_sep].
  intros entries1 entries2 H. apply (f_equal decode_query) in H.
  rewrite !decode_query_string in H.
  revert entries2 H. induction entries1 as [| e es IH]; intros [| e' es'] H;
    try discriminate; [reflexivity |].
  cbn in H. injection H as -> H. f_equal. apply IH. exact H.
Qed.

Lemma query_string_injective_witness :
  [("status", "a&b=c"); ("limit", "10")] = [("status", "a&b=c"); ("limit", "10")]
  /\ query_string [("status", "a&b=c"); ("limit", "10")] = "status=a%26b%3Dc&limit=10".
Proof.
  split; [| reflexivity].
  apply (proj1 query_string_injective). reflexivity.
Defined.

End QueryFacts.

(* ===================================================================== *)
(** * More of the admin page *)
(* ===================================================================== *)

Module Kiosks.

(** A row of [supabase.from("kiosks").select("id, name")]. *)
Record Row := { id : string; name : string }.

(** The reduce of the [all-kiosks] query: [acc[k.id] = k.name]. *)
Definition names (data : list Row) : gmap string string :=
  fold_left (fun acc k => <[ id k := name k ]> acc) data ∅.

(** [kiosks?.[kioskId] || kioskId.substring(0, 8)]; kiosk ids are UUIDs,
    which name no inherited property of an object. *)
Definition getKioskName (kiosks : option (gmap string string)) (kioskId : string) : string :=
  match kiosks ≫= (fun m => m !! kioskId) with
  | Some n => if String.eqb n "" then String.substring 0 8 kioskId else n
  | None => String.substring 0 8 kioskId
  end.

End Kiosks.

Section PageMore.
Import Js Api Page.

(** ** Kiosk names *)

Lemma names_lookup (data : list Kiosks.Row) (kioskId : string) :
  Kiosks.names data !! kioskId
  = Kiosks.name <$> List.find (fun k => String.eqb (Kiosks.id k) kioskId) (rev data).
Proof.
  unfold Kiosks.names. induction data as [| k data IH] using rev_ind; [reflexivity |].
  rewrite fold_left_app, rev_app_distr. cbn [fold_left rev app List.find].
  destruct (String.eqb_spec (Kiosks.id k) kioskId) as [<- | Hne].
  - apply lookup_insert_eq.
  - rewrite lookup_insert_ne by exact Hne. exact IH.
Qed.

Lemma substring_length (n : nat) (s : string) :
  String.length (String.substring 0 n s) <= n.
Proof.
  revert s. induction n as [| n IH]; intros [| c s]; cbn; try lia.
  specialize (IH s). lia.
Qed.

(** The name shown for a kiosk id is the name of the last fetched row
    with that id when that name is not empty; with no such row, an empty
    name, or before the kiosks are loaded, it is the first eight characters
    of the id. *)
Theorem getKioskName_spec (data : list Kiosks.Row) (kioskId : string) :
  Kiosks.getKioskName (Some (Kiosks.names data)) kioskId
  = match List.find (fun k => String.eqb (Kiosks.id k) kioskId) (rev data) with
    | Some k => if String.eqb (Kiosks.name k) "" then String.substring 0 8 kioskId
                else Kiosks.name k
    | None => String.substring 0 8 kioskId
    end
  /\ Kiosks.getKioskName None kioskId = String.substring 0 8 kioskId
  /\ String.length (String.substring 0 8 kioskId) <= 8
  /\ (String.length kioskId <= 8 -> String.substring 0 8 kioskId = kioskId).
Proof.
  split_and!.
  - unfold Kiosks.getKioskName. cbn [mbind option_bind]. rewrite names_lookup.
    destruct (List.find _ (rev data)); reflexivity.
  - reflexivity.
  - apply substring_length.
  - generalize 8. intros n. revert n. induction kioskId as [| c s IH]; intros [| n] H;
      cbn in *; try reflexivity; try lia.
    rewrite IH by lia. reflexivity.
Qed.

Definition sample_kiosks : list Kiosks.Row :=
  [ {| Kiosks.id := "550e8400-e29b-41d4-a716-446655440001"; Kiosks.name := "Downtown Kiosk" |};
    {| Kiosks.id := "550e8400-e29b-41d4-a716-446655440002"; Kiosks.name := "" |} ].

Lemma getKioskName_spec_witness :
  Kiosks.getKioskName (Some (Kiosks.names sample_kiosks)) "550e8400-e29b-41d4-a716-446655440001"
    = "Downtown Kiosk"
  /\ Kiosks.getKioskName (Some (Kiosks.names sample_kiosks)) "550e8400-e29b-41d4-a716-446655440002"
    = "550e8400"
  /\ Kiosks.getKioskName (Some (Kiosks.names sample_kiosks)) "550e8400-e29b-41d4-a716-446655440003"
    = "550e8400".
Proof. rewrite !(proj1 (getKioskName_spec _ _)). split_and!; reflexivity. Defined.

(** ** The approve mutation, end to end *)

Lemma mutationFn_with_wallet (w : World) (wallet redistributionId : string) :
  wallet <> "" ->
  run (mutationFn (Some wallet) redistributionId) w
  = run (approveRedistribution redistributionId wallet
           (Some ("approve-" ++ redistributionId ++ "-" ++ pretty (date_now w)))) w.
Proof.
  intros Hw. unfold mutationFn.
  destruct (String.eqb_spec wallet ""); [contradiction |].
  rewrite run_ask. reflexivity.
Qed.

(** The request that approves a redistribution. *)
Definition approve_request (w : World) (redistributionId wallet : string) : Request :=
  request_for w ("/redistributions/" ++ redistributionId ++ "/approve")
    {| method := Some "POST";
       body := Some (JObj [("admin_wallet", JStr wallet);
                           ("client_req_id",
                            JStr ("approve-" ++ redistributionId ++ "-" ++ pretty (date_now w)))]);
       init_headers := None |}.

(** Confirming an approval: with nothing selected nothing happens; with
    no admin wallet loaded (or an empty one) the mutation fails with
    ['Admin wallet not found'] and nothing is sent; otherwise exactly one
    request goes out, a POST to the approve endpoint of the selected
    redistribution with the wallet and a request id made of the
    redistribution id and the clock, and the page shows the pending state. *)
Theorem confirmApprove_cases (w : World) (st : State) :
  (selectedRedist st = None -> confirmApprove w st = (st, [], None))
  /\ (forall redist, selectedRedist st = Some redist ->
        adminWallet st = None \/ adminWallet st = Some "" ->
        confirmApprove w st
        = (set_pending st, [], Some (inl (Error "Admin wallet not found"))))
  /\ (forall redist wallet, selectedRedist st = Some redist ->
        adminWallet st = Some wallet -> wallet <> "" ->
        let rq := approve_request w (Redistribution.id redist) wallet in
        (confirmApprove w st).1 = (set_pending st, [rq])
        /\ req_method rq = Some "POST"
        /\ url rq = API_BASE_URL w ++ "/redistributions/" ++ Redistribution.id redist ++ "/approve").
Proof.
  split_and!.
  - intros H. unfold confirmApprove. rewrite H. reflexivity.
  - intros redist H [Hw | Hw]; unfold confirmApprove; rewrite H, Hw; reflexivity.
  - intros redist wallet H Hw Hnz rq. unfold confirmApprove. rewrite H, Hw.
    rewrite (mutationFn_with_wallet w wallet (Redistribution.id redist) Hnz).
    unfold approveRedistribution. rewrite apiRequest_run. cbn.
    split_and!; reflexivity.
Qed.

Lemma confirmApprove_cases_witness :
  (confirmApprove world_approving sample_page).1
  = (set_pending sample_page, [approve_request world_approving "r1" "WALLET"]).
Proof.
  refine (proj1 (proj2 (proj2 (confirmApprove_cases world_approving sample_page))
                  sample_redistribution "WALLET" eq_refl _ _)).
  - reflexivity.
  - discriminate.
Defined.

Lemma or_else_truthy (m : jsval) :
  truthy (or_else m (JStr "API request failed")) = true.
Proof. unfold or_else. destruct (truthy m) eqn:E; [exact E | reflexivity]. Qed.

(** From the click to the toast. When the server answers the approve
    request with a JSON body other than [null]: on a response that is [ok]
    the mutation resolves with the body's [data], the success toast is
    shown, the dialog closes and the selection is cleared; on a response
    that is not [ok] the mutation rejects with what [apiRequest] throws,
    and the error toast shows that error's message: the server's
    [error.message] converted to a string (['API request failed'] when it
    is falsy), the page's own ['Failed to approve redistribution'] when
    that string is empty, as it is for the message [[]]; the dialog, the
    selection and the cache stay as they were. Either way the pending
    flag is cleared. *)
Theorem approve_end_to_end
  (w : World) (st : State) (redist : Redistribution.t) (wallet : string)
  (ok : bool) (data : jsval) :
  selectedRedist st = Some redist ->
  adminWallet st = Some wallet -> wallet <> "" ->
  fetch w (approve_request w (Redistribution.id redist) wallet) = Response ok (inr data) ->
  nullish data = false ->
  exists outcome,
    (confirmApprove w st).2 = Some outcome
    /\ approveMutation_isPending (settle outcome (confirmApprove w st).1.1).1 = false
    /\ if ok
       then outcome = inr (prop data "data")
            /\ selectedRedist (settle outcome (confirmApprove w st).1.1).1 = None
            /\ approveDialogOpen (settle outcome (confirmApprove w st).1.1).1 = false
            /\ (settle outcome (confirmApprove w st).1.1).2
               = [toast_success (JStr "Redistribution approved successfully!")]
       else selectedRedist (settle outcome (confirmApprove w st).1.1).1 = Some redist
            /\ approveDialogOpen (settle outcome (confirmApprove w st).1.1).1
               = approveDialogOpen st
            /\ cache (settle outcome (confirmApprove w st).1.1).1 = cache st
            /\ outcome = inl (thrown_for (or_else (error_message_of data)
                                            (JStr "API request failed")))
            /\ (settle outcome (confirmApprove w st).1.1).2
               = [toast_error
                    (JStr match to_string (or_else (error_message_of data)
                                             (JStr "API request failed")) with
                          | Some EmptyString => "Failed to approve redistribution"
                          | Some text => text
                          | None => "Cannot convert object to primitive value"
                          end)].
Proof.
  intros Hsel Hw Hnz Hfetch Hdata.
  assert (Hrun : confirmApprove w st
                 = (set_pending st, [approve_request w (Redistribution.id redist) wallet],
                    Some (if ok then inr (prop data "data")
                          else inl (thrown_for (or_else (error_message_of data)
                                                  (JStr "API request failed")))))).
  { unfold confirmApprove. rewrite Hsel, Hw.
    rewrite (mutationFn_with_wallet w wallet (Redistribution.id redist) Hnz).
    unfold approveRedistribution. rewrite apiRequest_run.
    change (request_for w _ _) with (approve_request w (Redistribution.id redist) wallet).
    rewrite Hfetch. unfold get, get_opt, error_message_of. rewrite Hdata.
    destruct ok; [reflexivity |].
    destruct (nullish (prop data "error")) eqn:He; [reflexivity |].
    unfold get. rewrite He. reflexivity. }
  rewrite Hrun. cbn [fst snd].
  eexists. split; [reflexivity |].
  destruct ok; cbn.
  - split_and!; reflexivity.
  - split_and!; try reflexivity; [exact Hsel |].
    rewrite thrown_for_truthy by apply or_else_truthy.
    destruct (to_string _) as [[| c text] |]; reflexivity.
Qed.

(** The server refuses the approval of the sample page. *)
Definition world_refusing : World :=
  {| VITE_API_URL := None;
     session := Some {| access_token := "jwt" |};
     fetch := fun _ => Response false
                (inr (JObj [("error", JObj [("message", JStr "Already approved")])]));
     date_now := 1700000000000;
     math_random_36 := "0.4fzyo82mvyr" |}.

(** The server refuses with a list of messages that is empty. *)
Definition world_refusing_silently : World :=
  {| VITE_API_URL := None;
     session := Some {| access_token := "jwt" |};
     fetch := fun _ => Response false
                (inr (JObj [("error", JObj [("message", JArr [])])]));
     date_now := 1700000000000;
     math_random_36 := "0.4fzyo82mvyr" |}.

Lemma approve_end_to_end_witness :
  (exists outcome,
      (confirmApprove world_refusing sample_page).2 = Some outcome
      /\ (settle outcome (confirmApprove world_refusing sample_page).1.1).2
         = [toast_error (JStr "Already approved")])
  /\ (exists outcome,
        (confirmApprove world_refusing_silently sample_page).2 = Some outcome
        /\ (settle outcome (confirmApprove world_refusing_silently sample_page).1.1).2
           = [toast_error (JStr "Failed to approve redistribution")]).
Proof.
  split.
  - destruct (approve_end_to_end world_refusing sample_page sample_redistribution "WALLET"
                false (JObj [("error", JObj [("message", JStr "Already approved")])]))
      as (outcome & Hout & _ & _ & _ & _ & _ & Htoast);
      try reflexivity; [discriminate |].
    exists outcome. split; [exact Hout | exact Htoast].
  - destruct (approve_end_to_end world_refusing_silently sample_page sample_redistribution
                "WALLET" false (JObj [("error", JObj [("message", JArr [])])]))
      as (outcome & Hout & _ & _ & _ & _ & _ & Htoast);
      try reflexivity; [discriminate |].
    exists outcome. split; [exact Hout | exact Htoast].
Defined.

(** ** What a successful approval invalidates *)

Lemma key_matches_head (key : list string) :
  key_matches ["admin-redistributions"] key = true
  <-> exists rest, key = "admin-redistributions" :: rest.
Proof.
  destruct key as [| k rest]; cbn [key_matches].
  - split; [discriminate | intros (rest & [=])].
  - rewrite andb_true_r. split.
    + intros H%String.eqb_eq. subst k. eauto.
    + intros (rest' & [= -> _]). reflexivity.
Qed.

(** [onSuccess] invalidates the queries whose key array starts with the
    element ['admin-redistributions'], and only those: the entries of
    ['admin-redistributions-progress'] (the list of all redistributions),
    ['admin-wallet'] and ['all-kiosks'] are exactly as before. *)
Theorem onSuccess_invalidation_scope (st : State) :
  (forall key, (forall rest, key <> "admin-redistributions" :: rest) ->
      cache (onSuccess st).1 !! key = cache st !! key)
  /\ (forall rest,
        cache (onSuccess st).1 !! ("admin-redistributions" :: rest)
        = invalidate <$> cache st !! ("admin-redistributions" :: rest))
  /\ cache (onSuccess st).1 !! ["admin-redistributions-progress"]
     = cache st !! ["admin-redistributions-progress"]
  /\ cache (onSuccess st).1 !! ["admin-wallet"] = cache st !! ["admin-wallet"]
  /\ cache (onSuccess st).1 !! ["all-kiosks"] = cache st !! ["all-kiosks"].
Proof.
  assert (Hother : forall key, (forall rest, key <> "admin-redistributions" :: rest) ->
            cache (onSuccess st).1 !! key = cache st !! key).
  { intros key Hkey. cbn [onSuccess fst cache]. rewrite invalidateQueries_lookup.
    destruct (key_matches ["admin-redistributions"] key) eqn:E.
    - apply key_matches_head in E as (rest & ->). destruct (Hkey rest eq_refl).
    - destruct (cache st !! key); reflexivity. }
  split_and!.
  - exact Hother.
  - intros rest. cbn [onSuccess fst cache]. rewrite invalidateQueries_lookup.
    assert (E : key_matches ["admin-redistributions"] ("admin-redistributions" :: rest) = true)
      by (apply key_matches_head; eauto).
    rewrite E. reflexivity.
  - apply Hother. intros rest. discriminate.
  - apply Hother. intros rest. discriminate.
  - apply Hother. intros rest. discriminate.
Qed.

(** ** An invariant of the page *)

(** The state of the first render. *)
Definition initial : State :=
  {| selectedRedist := None;
     approveDialogOpen := false;
     detailsDialogOpen := false;
     selectedForDetails := None;
     approveMutation_isPending := false;
     cache := ∅ |}.

Inductive reachable (w : World) : State -> Prop :=
| reachable_initial : reachable w initial
| reachable_step (e : Event) (st : State) :
    reachable w st -> reachable w (step w e st).1.

(** Whatever the sequence of clicks, responses and refetches since the
    first render, while the approve mutation is pending a redistribution
    is selected: the spinner always belongs to a request. *)
Theorem pending_has_selection (w : World) (st : State) :
  reachable w st ->
  approveMutation_isPending st = true -> is_Some (selectedRedist st).
Proof.
  induction 1 as [| e st Hreach IH]; [discriminate |].
  destruct e; cbn; try exact IH.
  - eauto.
  - destruct (confirmApprove w st) as [[st' rqs] o] eqn:E. cbn.
    unfold confirmApprove in E. destruct (selectedRedist st) as [redist|] eqn:Hsel.
    + destruct (run _ w) in E. injection E as <- _ _. cbn. rewrite Hsel. eauto.
    + injection E as <- _ _. rewrite Hsel. exact IH.
  - destruct outcome; cbn; discriminate.
Qed.

Lemma pending_has_selection_witness :
  is_Some (selectedRedist
             (step world_approving ClickConfirmApproval
                (step world_approving (ClickApprove sample_redistribution) initial).1).1).
Proof.
  apply (pending_has_selection world_approving).
  - apply reachable_step, reachable_step, reachable_initial.
  - reflexivity.
Defined.

End PageMore.

(* ===================================================================== *)
(** * More of the inventory page *)
(* ===================================================================== *)

Module InventoryView.
Import Inventory.

(** "Total Products": [aggregatedProducts?.length || 0] *)
Definition total_products (aggregated : option (list Aggregated)) : nat :=
  match aggregated with
  | Some l => length l
  | None => 0
  end.

(** "Total Units":
    [aggregatedProducts?.reduce((sum, item) => sum + item.total_quantity, 0) || 0] *)
Definition total_units (aggregated : option (list Aggregated)) : Z :=
  match aggregated with
  | Some l =>
      let sum := fold_left (fun sum item => (sum + total_quantity item)%Z) l 0%Z in
      if (sum =? 0)%Z then 0%Z else sum
  | None => 0%Z
  end.

(** The card labelled "Kiosks": [inventoryItems?.length || 0] *)
Definition kiosks_card (inventoryItems : option (list KioskInventory.t)) : nat :=
  match inventoryItems with
  | Some rows => length rows
  | None => 0
  end.

(** [s.includes(term)] *)
Definition includes (s term : string) : bool :=
  match String.index 0 term s with
  | Some _ => true
  | None => false
  end.

Section Search.
(** [String.prototype.toLowerCase], the runtime's. *)
Variable toLowerCase : string -> string.


End Search.

End InventoryView.

Section InventoryMore.
Import Inventory InventoryView.

Abbreviation pid := KioskInventory.product_id.

Definition totals (acc : list Aggregated) : Z :=
  fold_right (fun e s => (total_quantity e + s)%Z) 0%Z acc.

Definition kiosk_count (acc : list Aggregated) : nat :=
  fold_right (fun e n => length (kiosks e) + n) 0 acc.

Lemma fold_left_totals (acc : list Aggregated) (a : Z) :
  fold_left (fun sum item => (sum + total_quantity item)%Z) acc a = (a + totals acc)%Z.
Proof.
  unfold totals. revert a. induction acc as [| e acc IH]; intros a; simpl; [lia |].
  rewrite IH. lia.
Qed.

Lemma reducer_totals (acc : list Aggregated) (item : KioskInventory.t) :
  totals (reducer acc item) = (totals acc + KioskInventory.quantity item)%Z
  /\ kiosk_count (reducer acc item) = S (kiosk_count acc)
  /\ length acc <= length (reducer acc item) <= S (length acc).
Proof.
  unfold totals, kiosk_count.
  induction acc as [| p acc (IH1 & IH2 & IH3)]; simpl.
  - split_and!; lia.
  - destruct (String.eqb (product_id p) (pid item)); simpl.
    + rewrite length_app. simpl. split_and!; lia.
    + rewrite IH1, IH2. split_and!; lia.
Qed.

Lemma fold_reducer_totals (rows : list KioskInventory.t) :
  totals (fold_left reducer rows []) = sum_quantities rows
  /\ kiosk_count (fold_left reducer rows []) = length rows
  /\ length (fold_left reducer rows []) <= length rows.
Proof.
  induction rows as [| item seen (IH1 & IH2 & IH3)] using rev_ind.
  - split_and!; reflexivity.
  - rewrite fold_left_app. cbn [fold_left].
    destruct (reducer_totals (fold_left reducer seen []) item) as (H1 & H2 & H3).
    rewrite H1, H2, IH1, IH2, sum_quantities_app, length_app.
    assert (Hone : sum_quantities [item] = KioskInventory.quantity item)
      by (unfold sum_quantities; simpl; lia).
    rewrite Hone. simpl. split_and!; lia.
Qed.

(** The aggregation loses and invents nothing: the "Total Units" card
    shows the sum of the quantities of all input rows, the kiosks lists of
    the entries have as many elements together as there are rows, and
    "Total Products" is at most the number of rows. *)
Theorem inventory_totals (rows : list KioskInventory.t) :
  total_units (aggregatedProducts (Some rows)) = sum_quantities rows
  /\ (exists agg, aggregatedProducts (Some rows) = Some agg
                  /\ kiosk_count agg = kiosks_card (Some rows))
  /\ total_products (aggregatedProducts (Some rows)) <= kiosks_card (Some rows)
  /\ total_units (aggregatedProducts None) = 0%Z.
Proof.
  destruct (fold_reducer_totals rows) as (H1 & H2 & H3).
  split_and!.
  - cbn [aggregatedProducts total_units]. rewrite fold_left_totals, H1.
    destruct (Z.eqb_spec (0 + sum_quantities rows) 0); lia.
  - eexists. split; [reflexivity | exact H2].
  - exact H3.
  - reflexivity.
Qed.

(** ** Order of the entries *)

(** The elements of a list in the order of their first occurrence. *)
Fixpoint first_occurrences (l : list string) : list string :=
  match l with
  | [] => []
  | x :: rest => x :: List.filter (fun y => negb (String.eqb y x)) (first_occurrences rest)
  end.

Lemma first_occurrences_snoc (l : list string) (x : string) :
  first_occurrences (l ++ [x])
  = (first_occurrences l ++ if existsb (String.eqb x) l then [] else [x])%list.
Proof.
  induction l as [| a l IH]; [reflexivity |].
  cbn [app first_occurrences existsb]. rewrite IH, List.filter_app.
  destruct (String.eqb_spec x a) as [-> | Hne]; cbn [orb].
  - destruct (existsb (String.eqb a) l); cbn; rewrite ?String.eqb_refl, ?app_nil_r;
      reflexivity.
  - destruct (existsb (String.eqb x) l); cbn; [reflexivity |].
    destruct (String.eqb_spec x a); [contradiction | reflexivity].
Qed.

Lemma existsb_agree (acc : list Aggregated) (seen : list KioskInventory.t) (x : string) :
  (forall y, In y (map product_id acc) <-> In y (map pid seen)) ->
  existsb (fun p => String.eqb (product_id p) x) acc
  = existsb (String.eqb x) (map pid seen).
Proof.
  intros Hids. apply eq_true_iff_eq. rewrite existsb_ids, Hids, existsb_exists. split.
  - intros H. exists x. split; [exact H | apply String.eqb_refl].
  - intros (y & Hy & ->%String.eqb_eq). exact Hy.
Qed.

(** The first input row of each entry's product. *)
Definition from_first_row (seen : list KioskInventory.t) (acc : list Aggregated) : Prop :=
  forall e, In e acc ->
    exists r rest, rows_of (product_id e) seen = r :: rest
                   /\ product e = KioskInventory.products r.

Lemma fold_reducer_order (rows : list KioskInventory.t) :
  map product_id (fold_left reducer rows []) = first_occurrences (map pid rows)
  /\ from_first_row rows (fold_left reducer rows []).
Proof.
  induction rows as [| item seen [IH1 IH2]] using rev_ind.
  - split; [reflexivity | intros e []].
  - pose proof (fold_reducer_summarises seen) as (Hnd & Hids & _).
    rewrite fold_left_app. cbn [fold_left]. split.
    + rewrite reducer_ids, map_app.
      change (map pid [item]) with [pid item].
      rewrite first_occurrences_snoc, IH1.
      rewrite (existsb_agree _ seen (pid item) Hids). reflexivity.
    + intros e' Hin. rewrite rows_of_snoc.
      destruct (reducer_entries _ item e' Hnd Hin)
        as [[H1 H2] | [(e & H1 & H2 & ->) | [-> H2]]].
      * destruct (IH2 e' H1) as (r & rest & Hr & Hp). rewrite Hr. cbn. eauto.
      * destruct (IH2 e H1) as (r & rest & Hr & Hp). cbn [product_id product bump].
        rewrite Hr. cbn. eauto.
      * cbn [product_id product fresh]. rewrite rows_of_none.
        -- rewrite String.eqb_refl. cbn. eauto.
        -- intros H. apply H2, Hids. exact H.
Qed.

(** The entries of the aggregation come in the order in which their
    products first appear in the input, and each entry's [product] is the
    joined product of the first input row of that product (later rows only
    add to the total and to the kiosks list). *)
Theorem aggregatedProducts_order (rows : list KioskInventory.t) :
  exists agg,
    aggregatedProducts (Some rows) = Some agg
    /\ map product_id agg = first_occurrences (map pid rows)
    /\ (forall e, In e agg ->
          exists r rest, rows_of (product_id e) rows = r :: rest
                         /\ product e = KioskInventory.products r).
Proof.
  exists (fold_left reducer rows []). split; [reflexivity |].
  exact (fold_reducer_order rows).
Qed.

(** ** The search box *)



Example includes_samples :
  includes "water bottle" "ter b" = true
  /\ includes "water bottle" "soda" = false
  /\ includes "abc" "abcd" = false
  /\ includes "" "" = true.
Proof. split_and!; reflexivity. Qed.




End InventoryMore.

(* ===================================================================== *)
(** * More of the create dialog *)
(* ===================================================================== *)

Module DialogView.
Import Dialog.

(** The [disabled] attribute of the "Create Request" button. *)
Definition submit_disabled (isPending : bool) (f : Form) : bool :=
  isPending || String.eqb (toKioskId f) "" || String.eqb (selectedProduct f) ""
  || String.eqb (quantity f) "".

(** The form after [onSuccess]: the three inputs are reset. *)
Definition reset (f : Form) : Form :=
  {| kioskId := kioskId f;
     toKioskId := "";
     selectedProduct := "";
     quantity := "";
     products := products f |}.

End DialogView.

Section DialogMore.
Import Js Api DialogView.

(** The button and the mutation agree except on the kiosk of the user:
    when the button is enabled and the user has a kiosk, the first check of
    the mutation passes; when the user has no kiosk the mutation fails with
    ['Please fill all fields'] although every visible field is filled.
    After a successful creation the form is reset, the button is disabled
    again, and a second submit would send nothing. *)
Theorem submit_button_guard (w : World) (f : Dialog.Form) :
  (submit_disabled false f = false ->
     (exists k, Dialog.kioskId f = Some k /\ k <> "") -> filled f)
  /\ (Dialog.falsy_opt (Dialog.kioskId f) = true ->
      run (Dialog.mutationFn f) w = (inl (Error "Please fill all fields"), []))
  /\ (forall isPending, submit_disabled isPending (reset f) = true)
  /\ run (Dialog.mutationFn (reset f)) w
     = (inl (Error "Please fill all fields"), []).
Proof.
  split_and!.
  - unfold submit_disabled, filled. cbn [orb].
    rewrite !orb_false_iff, !String.eqb_neq. intros ((H1 & H2) & H3) Hk. tauto.
  - intros Hk. rewrite mutationFn_cases, Hk. reflexivity.
  - intros isPending. unfold submit_disabled, reset. cbn.
    rewrite orb_true_r. reflexivity.
  - rewrite mutationFn_cases. unfold reset. cbn [Dialog.toKioskId].
    rewrite String.eqb_refl, orb_true_r. reflexivity.
Qed.

Lemma submit_button_guard_witness : filled form_valid.
Proof.
  apply (proj1 (submit_button_guard world_approving form_valid)).
  - reflexivity.
  - exists "k1". split; [reflexivity | discriminate].
Defined.

(** ** A selection that outlives its product *)

Definition juice : Dialog.ProductOption :=
  {| Dialog.id := "p2"; Dialog.sku := "PROD-002"; Dialog.name := "Orange Juice";
     Dialog.unit := "unit"; Dialog.available_quantity := 40 |}.

(** The user selected the water, whose stock then went: the products
    query, which only returns rows with a positive quantity, was refetched
    and no longer lists it, while [selectedProduct] still holds its id.
    The quantity typed is 0. *)
Definition form_stale_selection : Dialog.Form :=
  {| Dialog.kioskId := Some "k1";
     Dialog.toKioskId := "k2";
     Dialog.selectedProduct := "p1";
     Dialog.quantity := "0";
     Dialog.products := Some [juice] |}.

(** C6, counterexample: the button is enabled, the quantity parses to 0
    and the error is not ['Invalid quantity']: the product lookup comes
    before the quantity checks and fails with ['Product not found']. *)
Lemma createMutation_other_error_first :
  submit_disabled false form_stale_selection = false
  /\ filled form_stale_selection
  /\ Dialog.parseInt (Dialog.quantity form_stale_selection) = Some 0%Z
  /\ run (Dialog.mutationFn form_stale_selection) world_approving
     = (inl (Error "Product not found"), []).
Proof.
  split_and!; try reflexivity.
  unfold filled. cbn. split_and!; try discriminate.
  exists "k1". split; [reflexivity | discriminate].
Qed.

(** ** [parseInt] reads back what the page prints *)

Lemma digit_value_pretty_char (d : N) :
  (d < 10)%N -> Dialog.digit_value (pretty_N_char d) = Some d.
Proof.
  intros Hd.
  assert (d = 0 \/ d = 1 \/ d = 2 \/ d = 3 \/ d = 4 \/ d = 5 \/ d = 6 \/ d = 7
          \/ d = 8 \/ d = 9)%N as H by lia.
  repeat destruct H as [-> | H]; try subst d; reflexivity.
Qed.

Lemma parse_digits_step (c : ascii) (d : N) (s : string) (acc : option N) :
  Dialog.digit_value c = Some d -> (d < 10)%N ->
  Dialog.parse_digits 10 (String c s) acc
  = Dialog.parse_digits 10 s (Some (default 0%N acc * 10 + d)%N).
Proof.
  intros Hc Hd. cbn [Dialog.parse_digits]. rewrite Hc.
  destruct (N.ltb_spec d 10); [reflexivity | lia].
Qed.

(** Parsing the decimal digits of [x] in front of [s] takes the
    accumulator to [acc * 10^k + x] and goes on with [s]. *)
Lemma parse_digits_pretty_go (x : N) :
  (0 < x)%N ->
  forall s, exists k, forall acc,
    Dialog.parse_digits 10 (pretty_N_go x s) acc
    = Dialog.parse_digits 10 s (Some (default 0%N acc * 10 ^ k + x)%N).
Proof.
  induction (N.lt_wf_0 x) as [x _ IH]. intros Hx s.
  rewrite pretty_N_go_step by exact Hx.
  assert (Hmod : (x `mod` 10 < 10)%N) by (apply N.mod_lt; lia).
  destruct (N.eq_dec (x `div` 10)%N 0%N) as [Hz | Hnz].
  - rewrite Hz, pretty_N_go_0. exists 1%N. intros acc.
    rewrite (parse_digits_step _ (x `mod` 10)%N) by auto using digit_value_pretty_char.
    do 2 f_equal.
    assert (Hdm : (x = 10 * (x `div` 10) + x `mod` 10)%N)
      by (apply BinNat.N.div_mod; discriminate).
    rewrite Hz in Hdm. rewrite N.pow_1_r. lia.
  - destruct (IH (x `div` 10)%N) with (s := String (pretty_N_char (x `mod` 10)) s)
      as [k Hk].
    + apply N.div_lt; lia.
    + apply N.neq_0_lt_0. exact Hnz.
    + exists (k + 1)%N. intros acc. rewrite Hk.
      rewrite (parse_digits_step _ (x `mod` 10)%N) by auto using digit_value_pretty_char.
      do 2 f_equal. rewrite N.pow_add_r, N.pow_1_r.
      assert (Hdm : (x = 10 * (x `div` 10) + x `mod` 10)%N)
        by (apply BinNat.N.div_mod; discriminate).
      remember (x `div` 10)%N as q. remember (x `mod` 10)%N as r.
      remember (default 0%N acc) as a. remember (10 ^ k)%N as p.
      clear - Hdm. simpl (default _ (Some _)). lia.
Qed.

Lemma string_app_assoc (a b c : string) : (a ++ b) ++ c = a ++ (b ++ c).
Proof.
  induction a as [| x a IH]; [reflexivity |].
  change (String x ((a ++ b) ++ c) = String x (a ++ (b ++ c))).
  rewrite IH. reflexivity.
Qed.

Lemma pretty_N_go_app (x : N) (s : string) :
  pretty_N_go x s = pretty_N_go x "" ++ s.
Proof.
  revert s. induction (N.lt_wf_0 x) as [x _ IH]. intros s.
  destruct (N.eq_dec x 0%N) as [-> | Hx]; [rewrite !pretty_N_go_0; reflexivity |].
  assert (Hlt : (x `div` 10 < x)%N) by (apply N.div_lt; lia).
  rewrite !(pretty_N_go_step x) by lia.
  rewrite (IH _ Hlt (String (pretty_N_char (x `mod` 10)) s)).
  rewrite (IH _ Hlt (String (pretty_N_char (x `mod` 10)) "")).
  rewrite string_app_assoc. reflexivity.
Qed.

(** The first character of a printed positive number is a digit other
    than [0]. *)
Lemma pretty_N_go_head (x : N) (s : string) :
  (0 < x)%N ->
  exists d rest, (0 < d < 10)%N /\ pretty_N_go x s = String (pretty_N_char d) rest.
Proof.
  revert s. induction (N.lt_wf_0 x) as [x _ IH]. intros s Hx.
  rewrite pretty_N_go_step by exact Hx.
  destruct (N.eq_dec (x `div` 10)%N 0%N) as [Hz | Hnz].
  - rewrite Hz, pretty_N_go_0. exists (x `mod` 10)%N, s.
    assert (Hdm : (x = 10 * (x `div` 10) + x `mod` 10)%N)
      by (apply BinNat.N.div_mod; discriminate).
    rewrite Hz in Hdm.
    assert (Hmod : (x `mod` 10 < 10)%N) by (apply N.mod_lt; lia).
    split; [lia | reflexivity].
  - apply IH; [apply N.div_lt; lia | apply N.neq_0_lt_0; exact Hnz].
Qed.

(** A string that starts with a decimal digit is taken as it is: no
    white space, no sign; and there is a hex prefix only after a [0]. *)
Lemma skip_spaces_digit (d : N) (rest : string) :
  (d < 10)%N ->
  Dialog.skip_spaces (String (pretty_N_char d) rest) = String (pretty_N_char d) rest
  /\ Dialog.strip_sign (String (pretty_N_char d) rest) = (false, String (pretty_N_char d) rest).
Proof.
  intros Hd.
  assert (d = 0 \/ d = 1 \/ d = 2 \/ d = 3 \/ d = 4 \/ d = 5 \/ d = 6 \/ d = 7
          \/ d = 8 \/ d = 9)%N as H by lia.
  repeat destruct H as [-> | H]; try subst d;
    (split; [| reflexivity]); destruct rest as [| c2 [| c3 rest3]]; reflexivity.
Qed.

Lemma skip_spaces_minus (rest : string) :
  Dialog.skip_spaces (String "-" rest) = String "-" rest.
Proof. destruct rest as [| c2 [| c3 rest3]]; reflexivity. Qed.

Lemma strip_hex_prefix_digit (d : N) (rest : string) :
  (0 < d < 10)%N ->
  Dialog.strip_hex_prefix (String (pretty_N_char d) rest)
  = (10%N, String (pretty_N_char d) rest).
Proof.
  intros Hd.
  assert (d = 1 \/ d = 2 \/ d = 3 \/ d = 4 \/ d = 5 \/ d = 6 \/ d = 7
          \/ d = 8 \/ d = 9)%N as H by lia.
  repeat destruct H as [-> | H]; try subst d; reflexivity.
Qed.

(** What may follow the number: nothing, or a character that is neither
    a digit nor a letter. *)
Definition ends_number (rest : string) : Prop :=
  rest = "" \/ exists c r, rest = String c r /\ Dialog.digit_value c = None.

Lemma parse_digits_end (rest : string) (acc : option N) :
  ends_number rest -> Dialog.parse_digits 10 rest acc = acc.
Proof.
  intros [-> | (c & r & -> & Hc)]; [reflexivity |].
  cbn [Dialog.parse_digits]. rewrite Hc. reflexivity.
Qed.

Lemma strip_hex_prefix_zero (rest : string) :
  ends_number rest ->
  Dialog.strip_hex_prefix (String "0" rest) = (10%N, String "0" rest).
Proof.
  intros [-> | (c & r & -> & Hc)]; [reflexivity |].
  destruct c as [[] [] [] [] [] [] [] []]; first [reflexivity | discriminate Hc].
Qed.

Lemma parseInt_digits (x : N) (rest : string) :
  (0 < x)%N -> ends_number rest ->
  Dialog.strip_hex_prefix (pretty_N_go x rest) = (10%N, pretty_N_go x rest)
  /\ Dialog.parse_digits 10 (pretty_N_go x rest) None = Some x.
Proof.
  intros Hx Hrest. split.
  - destruct (pretty_N_go_head x rest Hx) as (d & tl & Hd & ->).
    apply strip_hex_prefix_digit. exact Hd.
  - destruct (parse_digits_pretty_go x Hx rest) as [k Hk].
    rewrite Hk, parse_digits_end by exact Hrest.
    simpl (default _ None). first [reflexivity | f_equal; lia].
Qed.

Lemma parseInt_decimal (z : Z) (rest : string) :
  ends_number rest -> Dialog.parseInt (pretty z ++ rest) = Some z.
Proof.
  intros Hrest. destruct z as [| p | p].
  - change (pretty 0%Z ++ rest) with (String (pretty_N_char 0) rest).
    unfold Dialog.parseInt.
    destruct (skip_spaces_digit 0 rest) as [-> ->]; [lia |].
    change (String (pretty_N_char 0) rest) with (String "0" rest).
    rewrite strip_hex_prefix_zero by exact Hrest.
    rewrite (parse_digits_step "0" 0) by (reflexivity || lia).
    rewrite parse_digits_end by exact Hrest. reflexivity.
  - change (pretty (Z.pos p)) with (pretty_N_go (N.pos p) "").
    rewrite <- pretty_N_go_app.
    destruct (parseInt_digits (N.pos p) rest) as [Hhex Hparse]; [lia | exact Hrest |].
    unfold Dialog.parseInt.
    destruct (pretty_N_go_head (N.pos p) rest) as (d & tl & Hd & Hhead); [lia |].
    rewrite Hhead in *.
    destruct (skip_spaces_digit d tl) as [-> ->]; [lia |].
    rewrite Hhex, Hparse. reflexivity.
  - change (pretty (Z.neg p) ++ rest)
      with (String "-" (pretty_N_go (N.pos p) "" ++ rest)).
    rewrite <- pretty_N_go_app.
    destruct (parseInt_digits (N.pos p) rest) as [Hhex Hparse]; [lia | exact Hrest |].
    unfold Dialog.parseInt. rewrite skip_spaces_minus.
    change (Dialog.strip_sign (String "-" (pretty_N_go (N.pos p) rest)))
      with (true, pretty_N_go (N.pos p) rest).
    cbv beta iota. rewrite Hhex, Hparse. reflexivity.
Qed.

(** A fraction typed into the quantity field is dropped, not refused:
    when the fields are filled, the product is found and the quantity
    reads as the decimal text of [qty] followed by something that ends the
    number, with [0 < qty <= available_quantity], the one request sent
    carries the quantity [qty]. *)
Theorem createMutation_truncates
  (w : World) (f : Dialog.Form) (product : Dialog.ProductOption) (qty : Z) (rest : string) :
  filled f ->
  Dialog.find_product f = Some product ->
  Dialog.quantity f = pretty qty ++ rest ->
  ends_number rest ->
  (0 < qty <= Dialog.available_quantity product)%Z ->
  snd (run (Dialog.mutationFn f) w)
  = [request_for w "/redistributions"
       {| method := Some "POST";
          body := Some (request_to_js (request_of w f product qty));
          init_headers := None |}]
  /\ items (request_of w f product qty)
     = [ {| sku := Dialog.sku product; quantity := qty |} ].
Proof.
  intros Hf%filled_guard Hp Hq Hrest [Hpos Hle]. split; [| reflexivity].
  rewrite mutationFn_cases, Hf, Hp, Hq, (parseInt_decimal qty rest Hrest).
  destruct (Z.leb_spec qty 0); [lia |].
  destruct (Z.ltb_spec (Dialog.available_quantity product) qty); [lia |].
  unfold createRedistribution. rewrite apiRequest_run. reflexivity.
Qed.

Definition form_fraction : Dialog.Form :=
  {| Dialog.kioskId := Some "k1";
     Dialog.toKioskId := "k2";
     Dialog.selectedProduct := "p1";
     Dialog.quantity := "2.9";
     Dialog.products := Some [water] |}.

Lemma createMutation_truncates_witness :
  exists rq, snd (run (Dialog.mutationFn form_fraction) world_approving) = [rq]
             /\ items (request_of world_approving form_fraction water 2)
                = [ {| sku := "PROD-001"; quantity := 2 |} ].
Proof.
  destruct (createMutation_truncates world_approving form_fraction water 2 ".9")
    as [Hsent Hitems].
  - unfold filled. cbn. split_and!; try discriminate.
    exists "k1". split; [reflexivity | discriminate].
  - reflexivity.
  - reflexivity.
  - right. exists "."%char, "9". split; reflexivity.
  - split; [reflexivity | cbn; discriminate].
  - eexists. split; [exact Hsent | exact Hitems].
Defined.

End DialogMore.

(* ===================================================================== *)
(** * The other policies of the schema *)
(* ===================================================================== *)

Module Policies.
Import Schema.

(** [has_role(_role, _user_id)] *)
Definition has_role (db : Database) (_role : string) (_user_id : sqlval) : bool :=
  sql_exists (rows db user_roles)
    (fun ur => sql_and (sql_eq (field ur "user_id") _user_id)
                       (sql_eq (field ur "role") (VEnum _role))).

(** The tables of [ALTER TABLE ... ENABLE ROW LEVEL SECURITY]. *)
Definition rls_enabled (t : table) : bool :=
  match t with
  | redistributions | blockchain_commands | blockchain_txns | kiosks
  | kiosk_inventory | products | profiles => true
  | users | admins | user_roles => false
  end.

(** The USING clause every "Admins can view all ..." policy shares. *)
Definition admin_policy (db : Database) (r : row) : bool := has_role_admin db.

(** "Users can view their own commands" *)
Definition users_can_view_their_own_commands (db : Database) (r : row) : bool :=
  bool_decide (sql_eq (field r "user_id") (auth_uid db) = Some true).

(** "Kiosks can view their redistribution transactions":
    [redistributions r JOIN profiles p ON p.user_id = auth.uid()
     WHERE r.id = blockchain_txns.redistribution_id AND (...)] *)
Definition kiosks_can_view_their_redistribution_transactions
  (db : Database) (txn : row) : bool :=
  existsb (fun r =>
    sql_exists (rows db profiles)
      (fun p => sql_and (sql_eq (field p "user_id") (auth_uid db))
                  (sql_and (sql_eq (field r "id") (field txn "redistribution_id"))
                     (sql_or (sql_eq (field p "kiosk_id") (field r "from_kiosk_id"))
                             (sql_eq (field p "kiosk_id") (field r "to_kiosk_id"))))))
    (rows db redistributions).

(** "Kiosks can view their own kiosk" *)
Definition kiosks_can_view_their_own_kiosk (db : Database) (k : row) : bool :=
  sql_exists (rows db profiles)
    (fun p => sql_and (sql_eq (field p "user_id") (auth_uid db))
                      (sql_eq (field p "kiosk_id") (field k "id"))).

(** "Authenticated users can view products": [auth.uid() IS NOT NULL] *)
Definition authenticated_users_can_view_products (db : Database) (r : row) : bool :=
  negb (bool_decide (auth_uid db = VNull)).

(** "Users can view their own profile" *)
Definition users_can_view_their_own_profile (db : Database) (r : row) : bool :=
  bool_decide (sql_eq (field r "user_id") (auth_uid db) = Some true).

(** The SELECT policies of each table, all permissive. *)
Definition select_policies (t : table) : list (Database -> row -> bool) :=
  match t with
  | redistributions =>
      [admins_can_view_all_redistributions; kiosks_can_view_their_own_redistributions]
  | blockchain_commands => [users_can_view_their_own_commands; admin_policy]
  | blockchain_txns => [admin_policy; kiosks_can_view_their_redistribution_transactions]
  | kiosks => [admin_policy; kiosks_can_view_their_own_kiosk]
  | products => [authenticated_users_can_view_products]
  | profiles => [users_can_view_their_own_profile; admin_policy]
  | kiosk_inventory | users | admins | user_roles => []
  end.

(** Whether a SELECT by the querying user (not the table owner) returns
    a row: without row-level security every row, with it the rows that
    some policy accepts. *)
Definition select_passes (t : table) (db : Database) (r : row) : bool :=
  if rls_enabled t then existsb (fun policy => policy db r) (select_policies t)
  else true.

Definition visible (t : table) (db : Database) : list row :=
  List.filter (select_passes t db) (rows db t).

End Policies.

Section PolicyFacts.
Import Schema Policies.

Lemma sql_eq_null_r (a : sqlval) : sql_eq a VNull = None.
Proof. destruct a; reflexivity. Qed.

Lemma sql_and_none_l (y : option bool) : sql_and None y <> Some true.
Proof. destruct y as [[]|]; discriminate. Qed.

Lemma sql_exists_false (candidates : list row) (cond : row -> option bool) :
  (forall r, cond r <> Some true) -> sql_exists candidates cond = false.
Proof.
  intros H. destruct (sql_exists candidates cond) eqn:E; [| reflexivity].
  apply sql_exists_true in E as (r & _ & Hr). destruct (H r Hr).
Qed.

Lemma filter_none {A} (f : A -> bool) (l : list A) :
  (forall x, f x = false) -> List.filter f l = [].
Proof. intros H. induction l as [| x l IH]; cbn; [reflexivity |]. rewrite H. exact IH. Qed.

Lemma filter_all {A} (f : A -> bool) (l : list A) :
  (forall x, f x = true) -> List.filter f l = l.
Proof. intros H. induction l as [| x l IH]; cbn; [reflexivity |]. rewrite H, IH. reflexivity. Qed.

(** Which tables row-level security covers. [kiosk_inventory] has it
    enabled with no policy at all, so a SELECT returns no row to any user
    subject to it; [users], [admins] and [user_roles] do not have it
    enabled, so every row is returned to whoever may query the table, with
    or without a session. *)
Theorem rls_coverage (db : Database) :
  visible kiosk_inventory db = []
  /\ (forall t, In t [users; admins; user_roles] -> visible t db = rows db t)
  /\ (forall t, rls_enabled t = false <-> In t [users; admins; user_roles]).
Proof.
  split_and!.
  - apply filter_none. reflexivity.
  - intros t Ht. apply filter_all. intros r.
    cbn in Ht. repeat destruct Ht as [<- | Ht]; try contradiction; reflexivity.
  - intros t. destruct t; cbn; split; try discriminate; try tauto;
      intros H; repeat destruct H as [H | H]; try discriminate; contradiction.
Qed.

Lemma has_role_admin_anonymous (db : Database) :
  auth_uid db = VNull -> has_role_admin db = false.
Proof.
  intros Hu. apply sql_exists_false. intros ur.
  rewrite Hu, sql_eq_null_r. apply sql_and_none_l.
Qed.

Lemma profiles_exists_anonymous (db : Database) (cond : row -> option bool) :
  auth_uid db = VNull ->
  sql_exists (rows db profiles)
    (fun p => sql_and (sql_eq (field p "user_id") (auth_uid db)) (cond p)) = false.
Proof.
  intros Hu. apply sql_exists_false. intros p.
  rewrite Hu, sql_eq_null_r. apply sql_and_none_l.
Qed.

(** Without a session [auth.uid()] is NULL, and then no policy of any
    table accepts any row: every table with row-level security enabled
    reads as empty. *)
Theorem anonymous_select_empty (db : Database) (t : table) :
  auth_uid db = VNull -> rls_enabled t = true -> visible t db = [].
Proof.
  intros Hu Ht. apply filter_none. intros r. unfold select_passes. rewrite Ht.
  assert (Hadmin : has_role_admin db = false) by (apply has_role_admin_anonymous, Hu).
  destruct t; try discriminate Ht; cbn [select_policies existsb];
    unfold admin_policy, admins_can_view_all_redistributions; rewrite ?Hadmin; cbn [orb].
  - unfold kiosks_can_view_their_own_kiosk.
    rewrite (profiles_exists_anonymous db _ Hu). reflexivity.
  - unfold authenticated_users_can_view_products. rewrite Hu. reflexivity.
  - reflexivity.
  - unfold kiosks_can_view_their_own_redistributions.
    rewrite (profiles_exists_anonymous db _ Hu). reflexivity.
  - unfold users_can_view_their_own_commands. rewrite Hu, sql_eq_null_r. reflexivity.
  - unfold kiosks_can_view_their_redistribution_transactions.
    rewrite orb_false_r.
    induction (rows db redistributions) as [| r' l IH]; [reflexivity |].
    cbn [existsb]. rewrite (profiles_exists_anonymous db _ Hu). exact IH.
  - unfold users_can_view_their_own_profile. rewrite Hu, sql_eq_null_r. reflexivity.
Qed.

Lemma anonymous_select_empty_witness :
  visible redistributions {| rows := rows kiosk_session; auth_uid := VNull |} = [].
Proof. apply anonymous_select_empty; reflexivity. Defined.

(** ** Who reads what *)

Lemma own_row_spec (db : Database) (r : row) :
  bool_decide (sql_eq (field r "user_id") (auth_uid db) = Some true) = true
  <-> field r "user_id" = auth_uid db /\ auth_uid db <> VNull.
Proof.
  rewrite bool_decide_eq_true, sql_eq_true. split.
  - intros [H1 H2]. split; congruence.
  - intros [H1 H2]. split; congruence.
Qed.

(** The rows of the other protected tables a user reads: a command when
    it is their own or they are an admin; a kiosk when a profile of theirs
    names it or they are an admin; a profile when it is their own or they
    are an admin; a product whenever they have a session. *)
Theorem select_policies_spec (db : Database) (r : row) :
  (select_passes blockchain_commands db r = true
     <-> (field r "user_id" = auth_uid db /\ auth_uid db <> VNull) \/ is_admin db)
  /\ (select_passes kiosks db r = true
     <-> is_admin db
         \/ exists p, In p (rows db profiles)
                      /\ field p "user_id" = auth_uid db /\ auth_uid db <> VNull
                      /\ field p "kiosk_id" = field r "id" /\ field r "id" <> VNull)
  /\ (select_passes profiles db r = true
     <-> (field r "user_id" = auth_uid db /\ auth_uid db <> VNull) \/ is_admin db)
  /\ (select_passes products db r = true <-> auth_uid db <> VNull).
Proof.
  unfold select_passes. cbn [rls_enabled select_policies existsb].
  unfold admin_policy, users_can_view_their_own_commands,
    users_can_view_their_own_profile.
  rewrite !orb_false_r, !orb_true_iff, !has_role_admin_spec, !own_row_spec.
  split_and!; try reflexivity.
  - apply or_iff_compat_l. unfold kiosks_can_view_their_own_kiosk.
    rewrite sql_exists_true. split.
    + intros (p & Hp & [[H1 H2]%sql_eq_true [H3 H4]%sql_eq_true]%sql_and_true).
      exists p. split_and!; congruence.
    + intros (p & Hp & H1 & H2 & H3 & H4). exists p. split; [exact Hp |].
      apply sql_and_true. split; apply sql_eq_true; split; congruence.
  - unfold authenticated_users_can_view_products.
    rewrite negb_true_iff, bool_decide_eq_false. reflexivity.
Qed.

(** An admin reads every row of every table except [kiosk_inventory]. *)
Theorem admin_reads_all (db : Database) (t : table) :
  is_admin db -> t <> kiosk_inventory -> visible t db = rows db t.
Proof.
  intros Ha Ht. apply filter_all. intros r. unfold select_passes.
  pose proof Ha as Hb. apply has_role_admin_spec in Hb.
  destruct Ha as (ur & _ & _ & Hu & _).
  destruct t; try contradiction; cbn [rls_enabled select_policies existsb];
    unfold admin_policy, admins_can_view_all_redistributions,
      authenticated_users_can_view_products;
    rewrite ?Hb, ?orb_true_r; try reflexivity.
  rewrite orb_false_r. apply negb_true_iff, bool_decide_eq_false. exact Hu.
Qed.

(** An admin [a1] and the tables of [kiosk_session]. *)
Definition admin_session : Database :=
  {| rows := fun t =>
       match t with
       | user_roles => [ {[ "user_id" := VUuid "a1"; "role" := VEnum "admin" ]} ]
       | _ => rows kiosk_session t
       end;
     auth_uid := VUuid "a1" |}.

Lemma admin_session_is_admin : is_admin admin_session.
Proof.
  exists {[ "user_id" := VUuid "a1"; "role" := VEnum "admin" ]}.
  split_and!; [left; reflexivity | vm_compute; reflexivity | discriminate
              | vm_compute; reflexivity].
Qed.

Lemma admin_reads_all_witness :
  visible redistributions admin_session = rows admin_session redistributions.
Proof.
  apply admin_reads_all; [exact admin_session_is_admin | discriminate].
Defined.

(** A transaction is readable exactly when its redistribution is: for a
    transaction whose [redistribution_id] is the id of a row of
    [redistributions], ids being unique there, the SELECT policies of
    [blockchain_txns] accept the transaction if and only if those of
    [redistributions] accept that row. *)
Theorem txn_visible_with_redistribution (db : Database) (txn r : row) :
  In r (rows db redistributions) ->
  field r "id" = field txn "redistribution_id" ->
  field r "id" <> VNull ->
  (forall r', In r' (rows db redistributions) -> field r' "id" = field r "id" -> r' = r) ->
  select_passes blockchain_txns db txn = passes SELECT db r.
Proof.
  intros Hr Hid Hnn Huniq. apply eq_true_iff_eq.
  rewrite passes_select. unfold select_passes.
  cbn [rls_enabled select_policies existsb].
  unfold admin_policy, admins_can_view_all_redistributions.
  rewrite orb_false_r, !orb_true_iff. apply or_iff_compat_l.
  unfold kiosks_can_view_their_redistribution_transactions,
    kiosks_can_view_their_own_redistributions.
  rewrite existsb_exists, sql_exists_true. split.
  - intros (r' & Hr' & (p & Hp & [H1 [H2 H3]%sql_and_true]%sql_and_true)%sql_exists_true).
    apply sql_eq_true in H2 as [H2 _].
    assert (r' = r) as -> by (apply Huniq; [exact Hr' | congruence]).
    exists p. split; [exact Hp |]. apply sql_and_true. split; assumption.
  - intros (p & Hp & [H1 H3]%sql_and_true). exists r. split; [exact Hr |].
    apply sql_exists_true. exists p. split; [exact Hp |].
    apply sql_and_true. split; [exact H1 |]. apply sql_and_true. split; [| exact H3].
    apply sql_eq_true. split; [exact Hid | exact Hnn].
Qed.

Definition sample_txn : row :=
  {[ "id" := VUuid "t1"; "redistribution_id" := VUuid "r1"; "txid" := VText "TX1" ]}.

Lemma txn_visible_with_redistribution_witness :
  select_passes blockchain_txns kiosk_session sample_txn = true.
Proof.
  rewrite (txn_visible_with_redistribution kiosk_session sample_txn (transfer "r1" "k1" "k2")).
  - vm_compute. reflexivity.
  - left. reflexivity.
  - vm_compute. reflexivity.
  - vm_compute. discriminate.
  - intros r' [<- | [<- | []]] H; [reflexivity |].
    vm_compute in H. discriminate.
Defined.

(** ** Who writes redistributions *)

Lemma has_role_admin_is (db : Database) :
  has_role db "admin" (auth_uid db) = has_role_admin db.
Proof. reflexivity. Qed.

Lemma passes_update_is (db : Database) (r : row) :
  passes UPDATE db r = has_role db "admin" (auth_uid db).
Proof. unfold passes. cbn. rewrite !orb_false_r. reflexivity. Qed.

Lemma passes_insert_spec (db : Database) (r : row) :
  passes INSERT db r = true
  <-> field r "created_by" = auth_uid db /\ auth_uid db <> VNull
      /\ has_role db "kiosk" (auth_uid db) = true.
Proof.
  unfold passes. cbn [redistributions_policies existsb fst snd].
  change (bool_decide (SELECT = INSERT)) with false.
  change (bool_decide (INSERT = INSERT)) with true.
  change (bool_decide (UPDATE = INSERT)) with false.
  cbn [andb orb]. rewrite orb_false_r.
  unfold kiosks_can_create_redistributions. rewrite bool_decide_eq_true, sql_and_true.
  rewrite sql_eq_true. split.
  - intros [[H1 H2] [= H3]]. split_and!; [exact H1 | congruence | exact H3].
  - intros (H1 & H2 & H3). split; [split; congruence |]. f_equal. exact H3.
Qed.

(** No policy admits a DELETE on [redistributions]; an UPDATE passes
    exactly for an admin, which is what [has_role('admin', auth.uid())]
    computes; an INSERT passes exactly when the row's [created_by] is the
    querying user and that user has the role ['kiosk']. *)
Theorem redistributions_write_policies (db : Database) (r : row) :
  passes DELETE db r = false
  /\ passes UPDATE db r = has_role db "admin" (auth_uid db)
  /\ (passes UPDATE db r = true <-> is_admin db)
  /\ (passes INSERT db r = true
      <-> field r "created_by" = auth_uid db /\ auth_uid db <> VNull
          /\ has_role db "kiosk" (auth_uid db) = true).
Proof.
  split_and!.
  - reflexivity.
  - apply passes_update_is.
  - rewrite passes_update_is, has_role_admin_is. apply has_role_admin_spec.
  - apply passes_insert_spec.
Qed.

(** [user_roles.user_id] is UNIQUE (and NOT NULL). *)
Definition unique_user_roles (db : Database) : Prop :=
  forall u1 u2, In u1 (rows db user_roles) -> In u2 (rows db user_roles) ->
    field u1 "user_id" = field u2 "user_id" -> u1 = u2.

(** With the UNIQUE constraint on [user_roles.user_id] a user has one
    role: nobody is both ['admin'] and ['kiosk'], so the user who may
    update redistributions can never insert one, and the other way round. *)
Theorem one_role_per_user (db : Database) (u : sqlval) (r r' : row) :
  unique_user_roles db ->
  (has_role db "admin" u = true -> has_role db "kiosk" u = false)
  /\ (passes UPDATE db r = true -> passes INSERT db r' = false).
Proof.
  intros Huniq.
  assert (Hex : forall v, has_role db "admin" v = true -> has_role db "kiosk" v = false).
  { intros v Ha. destruct (has_role db "kiosk" v) eqn:Hk; [| reflexivity].
    apply sql_exists_true in Ha as (u1 & Hu1 & [[A1 A2]%sql_eq_true [A3 _]%sql_eq_true]%sql_and_true).
    apply sql_exists_true in Hk as (u2 & Hu2 & [[K1 K2]%sql_eq_true [K3 _]%sql_eq_true]%sql_and_true).
    assert (u1 = u2) as -> by (apply Huniq; congruence).
    rewrite A3 in K3. discriminate. }
  split; [apply Hex |].
  intros Hupd. destruct (passes INSERT db r') eqn:Hins; [| reflexivity].
  apply passes_insert_spec in Hins as (_ & _ & Hk).
  rewrite passes_update_is in Hupd.
  rewrite (Hex _ Hupd) in Hk. discriminate.
Qed.

Lemma one_role_per_user_witness :
  passes INSERT admin_session
    {[ "created_by" := VUuid "a1"; "from_kiosk_id" := VUuid "k1" ]} = false.
Proof.
  refine (proj2 (one_role_per_user admin_session (VUuid "a1")
                   (transfer "r1" "k1" "k2") _ _) _).
  - intros u1 u2 [<- | []] [<- | []] _. reflexivity.
  - vm_compute. reflexivity.
Defined.

End PolicyFacts.

(* ===================================================================== *)
(** * More on the triggers *)
(* ===================================================================== *)

Section RowFacts.
Import Schema.

(** ** Which tables keep [updated_at] *)

(** Six tables have an [updated_at] column. Five of them have the
    trigger; [users] has none, so an UPDATE on [users] stores [updated_at]
    as the statement wrote it. Firing the trigger again at the same instant
    changes nothing. *)
Theorem updated_at_coverage (env : Env) (t : table) (NEW : row) :
  (In "updated_at" (column_names t) <-> t = users \/ In t tables_with_trigger)
  /\ fire_before_update env users NEW = Some NEW
  /\ (forall r, update_updated_at_column env NEW = Some r ->
        update_updated_at_column env r = Some r).
Proof.
  split_and!.
  - destruct t; cbn; split; intros H;
      repeat destruct H as [H | H]; try discriminate; try contradiction; tauto.
  - reflexivity.
  - intros r. unfold update_updated_at_column.
    destruct (NEW !! "updated_at"); [| discriminate].
    intros [= <-]. rewrite lookup_insert_eq, insert_insert_eq. reflexivity.
Qed.

End RowFacts.
